(** * SideNav: the static navigation tree and its renderer

    Shallow embedding of the side navigation component of the ATG code
    documentation site ([export function SideNav()] and the module constant
    [items]).  The component is plain JavaScript/JSX: object literals,
    property reads, [Array.prototype.map], strict equality, [&&] and JSX
    element construction.  The embedding keeps that shape:

    - JavaScript values are a small untyped universe ([JS.value]);
    - operations that can throw at run time (reading a property of
      [undefined], calling [.map] on something that is not an array) return
      in an error monad;
    - the module constant [items] and the router handed out by [useRouter()]
      live in an explicit store that every computation threads through;
    - the JSX result is a tree of elements ([vnode]). *)

From Stdlib Require Import String List Bool Arith Lia Permutation.
Import ListNotations.
Open Scope string_scope.
Open Scope list_scope.

#[local] Set Warnings "-register-all".

(** ** JavaScript values and the operations the component uses *)

Module JS.

(** The fragment of JavaScript values that occurs in the component:
    there are no numbers, functions or class instances in it.  An object
    lists its own properties in insertion order, each name once. *)
Inductive value : Type :=
| Undefined
| Null
| Bool (b : bool)
| Str (s : string)
| Arr (elems : list value)
| Obj (fields : list (string * value)).

(** What a computation can end with instead of a value.  [TypeError] is
    the exception JavaScript raises; [Unmodelled] flags an operation whose
    result lies outside the fragment above (prototype lookups on strings,
    booleans and arrays, identity comparison of objects). *)
Inductive error : Type :=
| TypeError (msg : string)
| Unmodelled (what : string).

Inductive result (A : Type) : Type :=
| Ok (a : A)
| Throw (e : error).
Arguments Ok {A} a.
Arguments Throw {A} e.

(** Own-property lookup in an object literal. *)
Fixpoint lookup (k : string) (fields : list (string * value)) : option value :=
  match fields with
  | [] => None
  | (k', v) :: rest => if String.eqb k k' then Some v else lookup k rest
  end.

(** [o.k], for the property names the component reads ([pathname],
    [title], [links], [href], [sub]): [Object.prototype] defines none of
    them, so on an object literal only own properties count. *)
Definition get (o : value) (k : string) : result value :=
  match o with
  | Undefined => Throw (TypeError ("Cannot read properties of undefined (reading '" ++ k ++ "')"))
  | Null => Throw (TypeError ("Cannot read properties of null (reading '" ++ k ++ "')"))
  | Obj fields =>
      match lookup k fields with
      | Some v => Ok v
      | None => Ok Undefined
      end
  | Bool _ | Str _ | Arr _ => Throw (Unmodelled ("prototype lookup of '" ++ k ++ "'"))
  end.

(** [a === b] *)
Definition strict_eq (a b : value) : result bool :=
  match a, b with
  | Undefined, Undefined => Ok true
  | Null, Null => Ok true
  | Bool x, Bool y => Ok (Bool.eqb x y)
  | Str x, Str y => Ok (String.eqb x y)
  | Arr _, Arr _ | Obj _, Obj _ => Throw (Unmodelled "object identity")
  | _, _ => Ok false
  end.

(** Truthiness, as tested by [&&] and [? :]. *)
Definition truthy (v : value) : bool :=
  match v with
  | Undefined | Null => false
  | Bool b => b
  | Str s => negb (String.eqb s "")
  | Arr _ | Obj _ => true
  end.

(** The properties copied by a spread [{...o}]. *)
Definition spread (o : value) : result (list (string * value)) :=
  match o with
  | Obj fields => Ok fields
  | Undefined | Null | Bool _ => Ok []
  | Str _ | Arr _ => Throw (Unmodelled "spread of indexed properties")
  end.

End JS.
Import JS.

(** ** The store and the computation monad *)

(** The two things the component reads from its environment: the module
    constant [items] and the router object that [useRouter()] returns. *)
Record store : Type := mkStore {
  module_items : value;
  router_context : value
}.

(** State and exceptions: a computation receives the store and returns its
    outcome together with the store it leaves behind. *)
Definition M (A : Type) : Type := store -> result A * store.

Definition ret {A : Type} (a : A) : M A := fun s => (Ok a, s).

Definition bind {A B : Type} (m : M A) (f : A -> M B) : M B :=
  fun s =>
    match m s with
    | (Ok a, s') => f a s'
    | (Throw e, s') => (Throw e, s')
    end.

Definition lift {A : Type} (r : result A) : M A := fun s => (r, s).

Notation "x <- m ;; k" := (bind m (fun x => k))
  (at level 100, m at next level, right associativity).

(** Evaluation of the identifier [items]. *)
Definition read_items : M value := fun s => (Ok (module_items s), s).

(** [useRouter()] *)
Definition useRouter : M value := fun s => (Ok (router_context s), s).

(** The callback of [.map] applied to every element, left to right. *)
Fixpoint mapM {A : Type} (f : value -> M A) (l : list value) : M (list A) :=
  match l with
  | [] => ret []
  | x :: rest =>
      y <- f x ;;
      ys <- mapM f rest ;;
      ret (y :: ys)
  end.

(** [a.map(f)]: only arrays have a [map] method in the value fragment. *)
Definition array_map {A : Type} (a : value) (f : value -> M A) : M (list A) :=
  match a with
  | Arr elems => mapM f elems
  | Undefined => lift (Throw (TypeError "Cannot read properties of undefined (reading 'map')"))
  | Null => lift (Throw (TypeError "Cannot read properties of null (reading 'map')"))
  | Bool _ | Str _ | Obj _ => lift (Throw (TypeError "map is not a function"))
  end.

(** ** JSX trees *)

(** What a JSX expression evaluates to: literal text, an embedded
    [{expression}] whose value is not an element, an array of children (the
    result of a [.map]), or an element with its props and children.
    The props are the attributes as written, [key] included.  Components
    ([Link]) are elements whose tag is the component's name. *)
Inductive vnode : Type :=
| Text (s : string)
| Expr (v : value)
| Frag (children : list vnode)
| Elem (tag : string) (props : list (string * value)) (children : list vnode).

(** ** The configuration: [const items = [...]] *)

Definition items : value :=
  Arr [
    Obj [
      ("title", Str "Code");
      ("links", Arr [
        Obj [("href", Str "/docs/code/es6"); ("children", Str "ES6 Tips"); ("sub", Arr [
          Obj [("href", Str "/docs/code/es6/array"); ("children", Str "Array")];
          Obj [("href", Str "/docs/code/es6/boolean"); ("children", Str "Boolean")];
          Obj [("href", Str "/docs/code/es6/date"); ("children", Str "Date")];
          Obj [("href", Str "/docs/code/es6/math"); ("children", Str "Math")];
          Obj [("href", Str "/docs/code/es6/number"); ("children", Str "Number")];
          Obj [("href", Str "/docs/code/es6/object"); ("children", Str "Object")];
          Obj [("href", Str "/docs/code/es6/string"); ("children", Str "String")];
          Obj [("href", Str "/docs/code/es6/misc"); ("children", Str "Miscellaneous")]
        ])];
        Obj [("href", Str "/docs/code/quality"); ("children", Str "Code Quality"); ("sub", Arr [
          Obj [("href", Str "/docs/code/quality/iterative-code"); ("children", Str "Iterative Code")];
          Obj [("href", Str "/docs/code/quality/variable-naming"); ("children", Str "Variable Naming")]
        ])];
        Obj [("href", Str "/docs/code/typescript"); ("children", Str "Typescript"); ("sub", Arr [
          Obj [("href", Str "/docs/code/quality/utility-types"); ("children", Str "Utility Types")];
          Obj [("href", Str "/docs/code/quality/additional-resources"); ("children", Str "Additional Resources")]
        ])]
      ])
    ];
    Obj [
      ("title", Str "React");
      ("links", Arr [
        Obj [("href", Str "/docs/react"); ("children", Str "Introduction")];
        Obj [("href", Str "/docs/react/handling-state"); ("children", Str "Handling State")]
      ])
    ]
  ].

(** ** The component *)

(** The template literal inside [<style jsx>]. *)
Definition sidenav_css : string :=
"
          .sidenav__group {
            margin-bottom: 2rem;
          }
          nav {
            position: sticky;
            top: var(--top-nav-height);
            height: calc(100vh - var(--top-nav-height));
            flex: 0 0 auto;
            overflow-y: auto;
            padding: 2.5rem 2rem 2rem;
            border-right: 1px solid var(--border-color);
          }
          span {
            font-size: larger;
            font-weight: 500;
            padding: 0.5rem 0 0.5rem;
          }
          ul {
            padding: 0;
          }
          li {
            list-style: none;
            margin: 0.5rem;
            font-size: 0.9rem;
          }
          li :global(a) {
            text-decoration: none;
          }
          li :global(a:hover),
          li.active > :global(a) {
            text-decoration: underline;
          }
          ul li ul {
            margin-bottom: 1rem;
          }
        ".

(** The callback of [link.sub.map(sublink => ...)]. *)
Definition render_sublink (router sublink : value) : M vnode :=
  pathname <- lift (get router "pathname") ;;
  href <- lift (get sublink "href") ;;
  subActive <- lift (strict_eq pathname href) ;;
  key <- lift (get sublink "href") ;;
  link_props <- lift (spread sublink) ;;
  ret (Elem "li" [("key", key); ("className", Str (if subActive then "active" else ""))]
         [Elem "Link" link_props []]).

(** The callback of [item.links.map((link) => ...)].  The second child of
    the [<li>] is [link.sub && <ul> {link.sub.map(...)} </ul>]: when
    [link.sub] is falsy the child is that value itself; otherwise it is the
    nested list, whose children are a space, the mapped array and a space
    (the blanks written on the same line as the braces are JSX text). *)
Definition render_link (router link : value) : M vnode :=
  pathname <- lift (get router "pathname") ;;
  href <- lift (get link "href") ;;
  active <- lift (strict_eq pathname href) ;;
  key <- lift (get link "href") ;;
  link_props <- lift (spread link) ;;
  sub <- lift (get link "sub") ;;
  nested <- (if truthy sub then
               sub' <- lift (get link "sub") ;;
               sublinks <- array_map sub' (render_sublink router) ;;
               ret (Elem "ul" [] [Text " "; Frag sublinks; Text " "])
             else ret (Expr sub)) ;;
  ret (Elem "li" [("key", key); ("className", Str (if active then "active" else ""))]
         [Elem "Link" link_props []; nested]).

(** The callback of [items.map((item) => ...)]. *)
Definition render_group (router item : value) : M vnode :=
  key <- lift (get item "title") ;;
  title <- lift (get item "title") ;;
  links <- lift (get item "links") ;;
  rendered <- array_map links (render_link router) ;;
  ret (Elem "div" [("key", key); ("className", Str "sidenav__group")]
         [Elem "span" [] [Expr title];
          Elem "ul" [("className", Str "flex column")] [Frag rendered]]).

(** [export function SideNav()] *)
Definition SideNav : M vnode :=
  router <- useRouter ;;
  its <- read_items ;;
  groups <- array_map its (render_group router) ;;
  ret (Elem "nav" [("className", Str "sidenav")]
         [Frag groups;
          Elem "style" [("jsx", Bool true)] [Expr (Str sidenav_css)]]).

(** The store in which a page at route [p] is rendered: the module constant
    holds [items] and the router reports [p] as its [pathname] (the only
    router property the component reads). *)
Definition router_at (p : string) : value := Obj [("pathname", Str p)].

Definition page_store (p : string) : store :=
  {| module_items := items; router_context := router_at p |}.

(** Rendering at route [p]: the outcome of [SideNav()]. *)
Definition render (p : string) : result vnode := fst (SideNav (page_store p)).

(** ** The configuration as typed data

    The same tree read as the records of the data model: a section has a
    title and links, a link has a target path, a label and optionally a list
    of sub-links, which do not nest further. *)

Module Config.

Record SubLink : Type := mkSubLink {
  sub_href : string;
  sub_children : string
}.

Record NavigationLink : Type := mkLink {
  href : string;
  children : string;
  sub : option (list SubLink)
}.

Record NavigationSection : Type := mkSection {
  title : string;
  links : list NavigationLink
}.

(** Own property [k] of an object literal, [Undefined] when absent. *)
Definition field (k : string) (o : value) : value :=
  match o with
  | Obj fields =>
      match lookup k fields with
      | Some v => v
      | None => Undefined
      end
  | _ => Undefined
  end.

Definition as_string (v : value) : option string :=
  match v with
  | Str s => Some s
  | _ => None
  end.

Fixpoint traverse {A B : Type} (f : A -> option B) (l : list A) : option (list B) :=
  match l with
  | [] => Some []
  | x :: rest =>
      match f x, traverse f rest with
      | Some y, Some ys => Some (y :: ys)
      | _, _ => None
      end
  end.

Definition decode_sublink (v : value) : option SubLink :=
  match as_string (field "href" v), as_string (field "children" v) with
  | Some h, Some c => Some (mkSubLink h c)
  | _, _ => None
  end.

Definition decode_sub (v : value) : option (option (list SubLink)) :=
  match v with
  | Undefined => Some None
  | Arr elems => option_map Some (traverse decode_sublink elems)
  | _ => None
  end.

Definition decode_link (v : value) : option NavigationLink :=
  match as_string (field "href" v), as_string (field "children" v),
        decode_sub (field "sub" v) with
  | Some h, Some c, Some s => Some (mkLink h c s)
  | _, _, _ => None
  end.

Definition decode_section (v : value) : option NavigationSection :=
  match as_string (field "title" v), field "links" v with
  | Some t, Arr elems => option_map (mkSection t) (traverse decode_link elems)
  | _, _ => None
  end.

Definition decode_items (v : value) : option (list NavigationSection) :=
  match v with
  | Arr elems => traverse decode_section elems
  | _ => None
  end.

(** The object literals a typed tree stands for. *)
Definition encode_sublink (s : SubLink) : value :=
  Obj [("href", Str (sub_href s)); ("children", Str (sub_children s))].

Definition encode_link (l : NavigationLink) : value :=
  Obj ([("href", Str (href l)); ("children", Str (children l))]
       ++ match sub l with
          | Some subs => [("sub", Arr (map encode_sublink subs))]
          | None => []
          end).

Definition encode_section (s : NavigationSection) : value :=
  Obj [("title", Str (title s)); ("links", Arr (map encode_link (links s)))].

Definition encode_items (n : list NavigationSection) : value :=
  Arr (map encode_section n).

(** The sub-links of a link, none when [sub] is absent. *)
Definition sublinks (l : NavigationLink) : list SubLink :=
  match sub l with
  | Some subs => subs
  | None => []
  end.

(** Every entry of the menu as (target path, label), in declaration
    order: a link is followed by its sub-links. *)
Definition link_entries (l : NavigationLink) : list (string * string) :=
  (href l, children l) :: map (fun s => (sub_href s, sub_children s)) (sublinks l).

Definition menu_entries (n : list NavigationSection) : list (string * string) :=
  flat_map (fun s => flat_map link_entries (links s)) n.

Definition hrefs (n : list NavigationSection) : list string :=
  map fst (menu_entries n).

End Config.

(** [items] as typed data. *)
Definition navigation : list Config.NavigationSection :=
  Eval vm_compute in
    match Config.decode_items items with
    | Some n => n
    | None => []
    end.

(** ** Reading a rendered tree *)

(** Prop [k] of an element, [Undefined] when the element has no such prop. *)
Definition prop (k : string) (props : list (string * value)) : value :=
  match lookup k props with
  | Some v => v
  | None => Undefined
  end.

(** An anchor is an [<a>] element, or a [Link] element of the framework,
    which renders one. *)
Definition is_anchor (tag : string) : bool :=
  String.eqb tag "Link" || String.eqb tag "a".

(** The targets of all anchors of a tree, in document order: the [href]
    prop of every [<a>] and of every [Link], wherever it stands
    ([Undefined] for an anchor without [href]). *)
Fixpoint anchors (n : vnode) : list value :=
  match n with
  | Text _ | Expr _ => []
  | Frag cs =>
      (fix over (l : list vnode) : list value :=
         match l with
         | [] => []
         | c :: rest => anchors c ++ over rest
         end) cs
  | Elem tag props cs =>
      (if is_anchor tag then [prop "href" props] else [])
      ++ (fix over (l : list vnode) : list value :=
            match l with
            | [] => []
            | c :: rest => anchors c ++ over rest
            end) cs
  end.

(** A rendered menu entry: a list item seen through the [Link] that is its
    direct child, with the class the item carries. *)
Record entry : Type := mkEntry {
  e_target : value;
  e_label : value;
  e_class : value
}.

(** The props of the first [Link] among the direct children. *)
Fixpoint link_of (cs : list vnode) : list (string * value) :=
  match cs with
  | [] => []
  | Elem tag props _ :: rest => if String.eqb tag "Link" then props else link_of rest
  | _ :: rest => link_of rest
  end.

(** List items by nesting: an item together with the items that occur
    inside it. *)
Inductive litree : Type :=
| LI (e : entry) (nested : list litree).

Fixpoint forest (n : vnode) : list litree :=
  match n with
  | Text _ | Expr _ => []
  | Frag cs =>
      (fix over (l : list vnode) : list litree :=
         match l with
         | [] => []
         | c :: rest => forest c ++ over rest
         end) cs
  | Elem tag props cs =>
      let inner :=
        (fix over (l : list vnode) : list litree :=
           match l with
           | [] => []
           | c :: rest => forest c ++ over rest
           end) cs in
      if String.eqb tag "li"
      then [LI (mkEntry (prop "href" (link_of cs)) (prop "children" (link_of cs))
                        (prop "className" props)) inner]
      else inner
  end.

(** All list items of a forest, parents before what they contain. *)
Fixpoint flatten (t : litree) : list entry :=
  match t with
  | LI e nested =>
      e :: (fix over (l : list litree) : list entry :=
              match l with
              | [] => []
              | k :: rest => flatten k ++ over rest
              end) nested
  end.

Definition entries (n : vnode) : list entry := flat_map flatten (forest n).

(** An entry is marked when its list item carries the class [active]. *)
Definition is_marked (e : entry) : bool :=
  match e_class e with
  | Str c => String.eqb c "active"
  | _ => false
  end.

(** The heading of a group: the value shown in the first [span] child. *)
Fixpoint heading_of (cs : list vnode) : value :=
  match cs with
  | [] => Undefined
  | Elem tag _ (Expr v :: _) :: rest => if String.eqb tag "span" then v else heading_of rest
  | _ :: rest => heading_of rest
  end.

(** The groups of a tree in document order: every [div], with its heading
    and the list items inside it. *)
Fixpoint groups (n : vnode) : list (value * list litree) :=
  match n with
  | Text _ | Expr _ => []
  | Frag cs =>
      (fix over (l : list vnode) : list (value * list litree) :=
         match l with
         | [] => []
         | c :: rest => groups c ++ over rest
         end) cs
  | Elem tag props cs =>
      if String.eqb tag "div"
      then [(heading_of cs, forest (Frag cs))]
      else (fix over (l : list vnode) : list (value * list litree) :=
              match l with
              | [] => []
              | c :: rest => groups c ++ over rest
              end) cs
  end.

(** A prop of a list item with the mark taken away: a [className] that
    is exactly [active] becomes the empty class; any other class, and any
    other prop, is kept as it is. *)
Definition unmark (kv : string * value) : string * value :=
  if String.eqb (fst kv) "className"
  then match snd kv with
       | Str c => if String.eqb c "active" then (fst kv, Str "") else kv
       | _ => kv
       end
  else kv.

(** A tree in which no list item carries [active]; everything else,
    other classes of list items included, stays as it is. *)
Fixpoint strip_marks (n : vnode) : vnode :=
  match n with
  | Text s => Text s
  | Expr v => Expr v
  | Frag cs => Frag (map strip_marks cs)
  | Elem tag props cs =>
      Elem tag (if String.eqb tag "li" then map unmark props else props)
           (map strip_marks cs)
  end.

Definition tree_outline (t : litree) : value * list value :=
  match t with
  | LI e nested =>
      (e_target e, map (fun k => match k with LI e' _ => e_target e' end) nested)
  end.

Definition group_outline (g : value * list litree) : value * list (value * list value) :=
  (fst g, map tree_outline (snd g)).

Definition section_outline (s : Config.NavigationSection)
  : value * list (value * list value) :=
  (Str (Config.title s),
   map (fun l => (Str (Config.href l),
                  map (fun sl => Str (Config.sub_href sl)) (Config.sublinks l)))
       (Config.links s)).

(** ** What the data model asks of a rendering

    Written from the description of the renderer, to be compared with what
    [SideNav] produces. *)

Module Spec.

(** The entry expected for a configured (path, label) at route [p]. *)
Definition entry_at (p : string) (d : string * string) : entry :=
  mkEntry (Str (fst d)) (Str (snd d))
          (Str (if String.eqb p (fst d) then "active" else "")).

Definition sub_at (p : string) (s : Config.SubLink) : litree :=
  LI (entry_at p (Config.sub_href s, Config.sub_children s)) [].

(** A link with its sub-links one level below it. *)
Definition link_at (p : string) (l : Config.NavigationLink) : litree :=
  LI (entry_at p (Config.href l, Config.children l))
     (map (sub_at p) (Config.sublinks l)).

Definition group_at (p : string) (s : Config.NavigationSection) : value * list litree :=
  (Str (Config.title s), map (link_at p) (Config.links s)).

End Spec.

(** ** The component read over typed data

    The tree [SideNav] builds, written as a plain function of a typed
    configuration and the route.  It is proved below to be what the
    component returns on the object literals the configuration stands for. *)

Module Typed.

Definition class_at (p target : string) : value :=
  Str (if String.eqb p target then "active" else "").

Definition sub_item (p : string) (s : Config.SubLink) : vnode :=
  Elem "li" [("key", Str (Config.sub_href s)); ("className", class_at p (Config.sub_href s))]
    [Elem "Link" [("href", Str (Config.sub_href s)); ("children", Str (Config.sub_children s))] []].

Definition link_props (l : Config.NavigationLink) : list (string * value) :=
  [("href", Str (Config.href l)); ("children", Str (Config.children l))]
  ++ match Config.sub l with
     | Some subs => [("sub", Arr (map Config.encode_sublink subs))]
     | None => []
     end.

Definition nested_list (p : string) (l : Config.NavigationLink) : vnode :=
  match Config.sub l with
  | Some subs => Elem "ul" [] [Text " "; Frag (map (sub_item p) subs); Text " "]
  | None => Expr Undefined
  end.

Definition link_item (p : string) (l : Config.NavigationLink) : vnode :=
  Elem "li" [("key", Str (Config.href l)); ("className", class_at p (Config.href l))]
    [Elem "Link" (link_props l) []; nested_list p l].

Definition group (p : string) (s : Config.NavigationSection) : vnode :=
  Elem "div" [("key", Str (Config.title s)); ("className", Str "sidenav__group")]
    [Elem "span" [] [Expr (Str (Config.title s))];
     Elem "ul" [("className", Str "flex column")]
       [Frag (map (link_item p) (Config.links s))]].

Definition nav (n : list Config.NavigationSection) (p : string) : vnode :=
  Elem "nav" [("className", Str "sidenav")]
    [Frag (map (group p) n);
     Elem "style" [("jsx", Bool true)] [Expr (Str sidenav_css)]].

End Typed.

(** The tree expected at route [p] for the static configuration. *)
Definition page (p : string) : vnode := Typed.nav navigation p.

(** Two renderings one after the other, the second in the store the first
    left behind. *)
Definition render_twice : M (vnode * vnode) :=
  first <- SideNav ;;
  second <- SideNav ;;
  ret (first, second).

(** The store of a page whose configuration is the typed tree [n]. *)
Definition store_of (n : list Config.NavigationSection) (p : string) : store :=
  {| module_items := Config.encode_items n; router_context := router_at p |}.

(** ** Auxiliary notions *)

(** [m] hands back the store it was given, whatever its outcome. *)
Definition preserves {A : Type} (m : M A) : Prop :=
  forall s, snd (m s) = s.

Fixpoint distinctb (l : list string) : bool :=
  match l with
  | [] => true
  | x :: rest => negb (existsb (String.eqb x) rest) && distinctb rest
  end.


(** ** Configurations without links *)

(** No section of [n] has a link. *)
Definition no_links (n : list Config.NavigationSection) : bool :=
  forallb (fun s => match Config.links s with [] => true | _ :: _ => false end) n.

(** ** The presentational wrappers

    [TopNav({children})] and [Callout({title, children})] place what they
    are given inside a fixed frame.  A slot receives any renderable node;
    a prop that is not passed is [Expr Undefined]. *)

Definition topnav_css : string :=
"
          nav {
            top: 0;
            position: fixed;
            width: 100%;
            z-index: 100;
            display: flex;
            align-items: center;
            justify-content: space-between;
            gap: 1rem;
            padding: 1rem 2rem;
            background: hsl(0, 0%, 8%);
            border-bottom: 1px solid var(--border-color);
          }
          nav :global(a) {
            text-decoration: none;
          }
          section {
            display: flex;
            gap: 1rem;
            padding: 0;
          }
        ".

(** [export function TopNav({children})] *)
Definition TopNav (children : vnode) : vnode :=
  Elem "nav" []
    [Elem "img" [("src", Str "/images/ATG-Logo-Red-low-res.jpeg"); ("width", Str "120")] [];
     Elem "section" [] [children];
     Elem "style" [("jsx", Bool true)] [Expr (Str topnav_css)]].

Definition callout_css : string :=
"
          .callout {
            display: flex;
            flex-direction: column;
            padding: 12px 16px;
            background: hsl(0, 0%, 8%);
            border: 1px solid #dce6e9;
            border-radius: 4px;
          }
          .callout :global(p) {
            margin: 0;
          }
        ".

(** [export function Callout({ title, children })] *)
Definition Callout (title children : vnode) : vnode :=
  Elem "div" [("className", Str "callout")]
    [Elem "strong" [] [title];
     Elem "span" [] [children];
     Elem "style" [("jsx", Bool true)] [Expr (Str callout_css)]].

(** * The documented helpers

    The functions given in the ES6, code-quality and object pages of the
    documentation.  Numbers are integers ([Z]), or integers and [NaN]
    ([number]); arrays are dense (a list has no holes).  JavaScript has two
    equalities on array elements: [includes] and [Set] membership compare
    with SameValueZero, under which [NaN] equals itself, while [===],
    [indexOf] and [lastIndexOf] never find [NaN] equal to anything. *)

From Stdlib Require Import ZArith Sorted.

(** SameValueZero on array elements: it decides equality. *)
Class StrictEq (A : Type) : Type := {
  same : A -> A -> bool;
  same_eq : forall x y, same x y = true <-> x = y
}.

#[export] Instance StrictEq_Z : StrictEq Z :=
  {| same := Z.eqb; same_eq := Z.eqb_eq |}.

#[export] Instance StrictEq_string : StrictEq string :=
  {| same := String.eqb; same_eq := String.eqb_eq |}.

(** Which elements are [NaN]. *)
Class WithNaN (A : Type) : Type := {
  is_nan : A -> bool
}.

#[export] Instance WithNaN_Z : WithNaN Z := {| is_nan := fun _ => false |}.

#[export] Instance WithNaN_string : WithNaN string := {| is_nan := fun _ => false |}.

(** [v === w]: SameValueZero, except that [NaN] is not equal to itself. *)
Definition strict {A : Type} {E : StrictEq A} {N : WithNaN A} (v w : A) : bool :=
  negb (is_nan v) && same v w.

(** Numbers that may be [NaN]. *)
Inductive number : Type :=
| NaN
| Int (z : Z).

Definition number_same (a b : number) : bool :=
  match a, b with
  | NaN, NaN => true
  | Int x, Int y => Z.eqb x y
  | _, _ => false
  end.

#[export] Instance StrictEq_number : StrictEq number.
Proof.
  refine {| same := number_same |}.
  intros [| x] [| y]; simpl; split; intros H;
    try reflexivity; try discriminate H.
  - apply Z.eqb_eq in H. now subst.
  - injection H as ->. apply Z.eqb_refl.
Defined.

#[export] Instance WithNaN_number : WithNaN number :=
  {| is_nan := fun a => match a with NaN => true | Int _ => false end |}.

(** ** Array helpers of the ES6 page *)

Module ES6Array.

Section Elements.

Context {A : Type} {E : StrictEq A} {N : WithNaN A}.

(** [arr.length] *)
Definition len (arr : list A) : Z := Z.of_nat (length arr).

(** The position a relative index of [slice] stands for: negative indices
    count from the end, and the result is kept within [0 .. len]. *)
Definition relative (len i : Z) : Z :=
  if (i <? 0)%Z then Z.max (len + i) 0 else Z.min i len.

(** [arr.slice(start, end)] *)
Definition slice (arr : list A) (start stop : Z) : list A :=
  let k := relative (len arr) start in
  let final := relative (len arr) stop in
  firstn (Z.to_nat (Z.max (final - k) 0)) (skipn (Z.to_nat k) arr).

(** [arr.slice(start)] *)
Definition slice_from (arr : list A) (start : Z) : list A :=
  slice arr start (len arr).

(** [const takeRight = (arr, n = 1) => arr.slice(arr.length - n, arr.length)] *)
Definition takeRight (arr : list A) (n : option Z) : list A :=
  let n := match n with Some n => n | None => 1%Z end in
  slice arr (len arr - n) (len arr).

(** [removeByIndex(arr, index)]:
    [[...arr.slice(0, index), ...arr.slice(index + 1)]] *)
Definition removeByIndex (arr : list A) (index : Z) : list A :=
  slice arr 0 index ++ slice_from arr (index + 1).

(** [arr.includes(v)] *)
Definition includes (arr : list A) (v : A) : bool := existsb (fun x => same x v) arr.

(** [removeMultiple(arr, values)]: [arr.filter((a) => !values.includes(a))] *)
Definition removeMultiple (arr values : list A) : list A :=
  filter (fun a => negb (includes values a)) arr.

(** [const similarity = (a, b) => a.filter((v) => b.includes(v))] *)
Definition similarity (a b : list A) : list A :=
  filter (fun v => includes b v) a.

(** [arr.reduce(f, init)], the callback receiving the accumulator, the
    element and its index. *)
Fixpoint reduce_from {B : Type} (f : B -> A -> Z -> B) (i : Z) (arr : list A) (acc : B) : B :=
  match arr with
  | [] => acc
  | x :: rest => reduce_from f (i + 1) rest (f acc x i)
  end.

Definition reduce {B : Type} (f : B -> A -> Z -> B) (arr : list A) (init : B) : B :=
  reduce_from f 0 arr init.

(** [countOccurrences(arr, val)]:
    [arr.reduce((a, v) => (v === val ? a + 1 : a), 0)] *)
Definition countOccurrences (arr : list A) (val : A) : Z :=
  reduce (fun a v _ => if strict v val then (a + 1)%Z else a) arr 0%Z.

(** [indexOfAll(arr, val)]:
    [arr.reduce((acc, el, i) => (el === val ? [...acc, i] : acc), [])] *)
Definition indexOfAll (arr : list A) (val : A) : list Z :=
  reduce (fun acc el i => if strict el val then acc ++ [i] else acc) arr [].

(** [arr.indexOf(v)]: the first index whose element is [=== v], [-1]
    when there is none. *)
Fixpoint indexOf_from (i : Z) (arr : list A) (v : A) : Z :=
  match arr with
  | [] => (-1)%Z
  | x :: rest => if strict x v then i else indexOf_from (i + 1) rest v
  end.

Definition indexOf (arr : list A) (v : A) : Z := indexOf_from 0 arr v.

(** [arr.lastIndexOf(v)]: the last index whose element is [=== v], [-1]
    when there is none. *)
Fixpoint lastIndexOf_from (i : Z) (arr : list A) (v : A) : Z :=
  match arr with
  | [] => (-1)%Z
  | x :: rest =>
      let later := lastIndexOf_from (i + 1) rest v in
      if (later =? -1)%Z then (if strict x v then i else (-1)%Z) else later
  end.

Definition lastIndexOf (arr : list A) (v : A) : Z := lastIndexOf_from 0 arr v.

(** [filterNonUnique(arr)]:
    [arr.filter((i) => arr.indexOf(i) === arr.lastIndexOf(i))] *)
Definition filterNonUnique (arr : list A) : list A :=
  filter (fun i => (indexOf arr i =? lastIndexOf arr i)%Z) arr.

(** A [Set] as the list of its members in insertion order. *)
Definition set_add (s : list A) (x : A) : list A :=
  if includes s x then s else s ++ [x].

(** [new Set(xs)] *)
Definition new_Set (xs : list A) : list A := fold_left set_add xs [].

(** [const union = (a, b) => Array.from(new Set([...a, ...b]))] *)
Definition union (a b : list A) : list A := new_Set (a ++ b).

(** What a call that may be refused returns. *)
Inductive outcome (B : Type) : Type :=
| Returns (b : B)
| RangeError (msg : string).

(** [Array(n)]: the length must be an integer in [0 .. 2^32 - 1]. *)
Definition Array_of_length (n : Z) : outcome nat :=
  if ((0 <=? n) && (n <? 2 ^ 32))%Z
  then Returns nat (Z.to_nat n)
  else RangeError nat "Invalid array length".

(** [makeRepeated(arr, repeats)]:
    [Array.from({ length: repeats }, () => arr).flat()].  The length of an
    array-like is taken with negative values as [0]. *)
Definition makeRepeated (arr : list A) (repeats : Z) : outcome (list A) :=
  match Array_of_length (Z.max repeats 0) with
  | Returns _ n => Returns _ (concat (repeat arr n))
  | RangeError _ msg => RangeError _ msg
  end.

(** [makeRepeatedRecursive(a, n)]:
    [n ? a.concat(makeRepeatedRecursive(a, n - 1)) : []].  [fuel] bounds
    the depth of the recursion; [None] is a run cut off by it. *)
Fixpoint makeRepeatedRecursive (fuel : nat) (a : list A) (n : Z) : option (list A) :=
  match fuel with
  | O => None
  | S fuel' =>
      if (n =? 0)%Z then Some []
      else option_map (fun r => a ++ r) (makeRepeatedRecursive fuel' a (n - 1))
  end.

(** [makeRepeatedWithConcat(arr, repeats)]:
    [[].concat(...Array(repeats).fill(arr))] *)
Definition makeRepeatedWithConcat (arr : list A) (repeats : Z) : outcome (list A) :=
  match Array_of_length repeats with
  | Returns _ n => Returns _ (fold_left (fun acc x => acc ++ x) (repeat arr n) [])
  | RangeError _ msg => RangeError _ msg
  end.

(** [makeRepeatedWithFill(a, n)]: [Array(n).fill(a).flat(1)] *)
Definition makeRepeatedWithFill (a : list A) (n : Z) : outcome (list A) :=
  match Array_of_length n with
  | Returns _ k => Returns _ (concat (repeat a k))
  | RangeError _ msg => RangeError _ msg
  end.

End Elements.

End ES6Array.

(** ** Bit tricks of the miscellaneous page *)

Module ES6Misc.

(** The 32-bit signed integer a bitwise operator sees in place of [n]. *)
Definition toInt32 (n : Z) : Z :=
  let m := (n mod 2 ^ 32)%Z in
  if (m <? 2 ^ 31)%Z then m else (m - 2 ^ 32)%Z.

(** [a & b] *)
Definition bit_and (a b : Z) : Z := Z.land (toInt32 a) (toInt32 b).

(** [~a] *)
Definition bit_not (a : Z) : Z := Z.lnot (toInt32 a).

(** [const isOdd = (int) => (int & 1) === 1] *)
Definition isOdd (int : Z) : bool := (bit_and int 1 =? 1)%Z.

(** [const isEven = (int) => (int & 1) === 0] *)
Definition isEven (int : Z) : bool := (bit_and int 1 =? 0)%Z.

(** [const foundIndex = (index) => Boolean(~index)] *)
Definition foundIndex (index : Z) : bool := negb (bit_not index =? 0)%Z.

End ES6Misc.

(** ** Object helper of the object page *)

Module ES6Object.

(** [omitProperty(prop, { [prop]: _, ...rest }) => rest]: the own
    properties of the second argument other than [prop], in order.
    Destructuring [undefined] or [null] throws. *)
Definition omitProperty (prop : string) (o : value) : result value :=
  match o with
  | Obj fields =>
      Ok (Obj (filter (fun kv => negb (String.eqb (fst kv) prop)) fields))
  | Undefined => Throw (TypeError "Cannot destructure 'undefined' as it is undefined.")
  | Null => Throw (TypeError "Cannot destructure 'null' as it is null.")
  | Bool _ => Ok (Obj [])
  | Str _ | Arr _ => Throw (Unmodelled "rest of indexed properties")
  end.

End ES6Object.

(** ** Binary search of the code-quality page *)

Module Quality.

(** [array[i]], [None] standing for [undefined]. *)
Definition item (array : list Z) (i : Z) : option Z :=
  if (i <? 0)%Z then None else nth_error array (Z.to_nat i).

(** The [while (left <= right)] loop of [binarySearch]; [fuel] bounds the
    number of iterations and [None] is a run cut off by it.  An item that
    is [undefined] is neither equal to nor less than [search]. *)
Fixpoint binarySearch_loop (fuel : nat) (array : list Z) (search left right : Z)
  : option bool :=
  match fuel with
  | O => None
  | S fuel' =>
      if (left <=? right)%Z then
        let middle := ((left + right) / 2)%Z in
        match item array middle with
        | Some middleItem =>
            if (middleItem =? search)%Z then Some true
            else if (middleItem <? search)%Z
                 then binarySearch_loop fuel' array search (middle + 1) right
                 else binarySearch_loop fuel' array search left (middle - 1)
        | None => binarySearch_loop fuel' array search left (middle - 1)
        end
      else Some false
  end.

(** [function binarySearch(array, search)] *)
Definition binarySearch (fuel : nat) (array : list Z) (search : Z) : option bool :=
  binarySearch_loop fuel array search 0 (Z.of_nat (length array) - 1).

End Quality.

(** ** Grouping events, from the TypeScript page *)

Module TypeScriptDoc.

(** The [kind] of a [TechEvent]. *)
Inductive EventKind : Type := Conference | Meetup | Webinar | Hackathon.

Definition kind_eqb (a b : EventKind) : bool :=
  match a, b with
  | Conference, Conference | Meetup, Meetup
  | Webinar, Webinar | Hackathon, Hackathon => true
  | _, _ => false
  end.

(** [type GroupedEvents] *)
Record GroupedEvents (T : Type) : Type := mkGrouped {
  conference : list T;
  meetup : list T;
  webinar : list T;
  hackathon : list T
}.
Arguments mkGrouped {T} _ _ _ _.
Arguments conference {T} _.
Arguments meetup {T} _.
Arguments webinar {T} _.
Arguments hackathon {T} _.

Section Events.

Context {T : Type} (kind : T -> EventKind).

(** [grouped[k]] *)
Definition group (grouped : GroupedEvents T) (k : EventKind) : list T :=
  match k with
  | Conference => conference grouped
  | Meetup => meetup grouped
  | Webinar => webinar grouped
  | Hackathon => hackathon grouped
  end.

(** [grouped[el.kind].push(el)] *)
Definition push (grouped : GroupedEvents T) (el : T) : GroupedEvents T :=
  match kind el with
  | Conference =>
      mkGrouped (conference grouped ++ [el]) (meetup grouped) (webinar grouped)
                (hackathon grouped)
  | Meetup =>
      mkGrouped (conference grouped) (meetup grouped ++ [el]) (webinar grouped)
                (hackathon grouped)
  | Webinar =>
      mkGrouped (conference grouped) (meetup grouped) (webinar grouped ++ [el])
                (hackathon grouped)
  | Hackathon =>
      mkGrouped (conference grouped) (meetup grouped) (webinar grouped)
                (hackathon grouped ++ [el])
  end.

(** [function groupEvents(events)]: the four groups start empty and
    [events.forEach] pushes each event on the group of its kind. *)
Definition groupEvents (events : list T) : GroupedEvents T :=
  fold_left push events (mkGrouped [] [] [] []).

End Events.

End TypeScriptDoc.

(** * Proofs *)

(** ** Computations that leave the store alone *)

Lemma preserves_ret {A : Type} (a : A) : preserves (ret a).
Proof. intros s. reflexivity. Qed.

Lemma preserves_lift {A : Type} (r : result A) : preserves (lift r).
Proof. intros s. reflexivity. Qed.

Lemma preserves_read_items : preserves read_items.
Proof. intros s. reflexivity. Qed.

Lemma preserves_useRouter : preserves useRouter.
Proof. intros s. reflexivity. Qed.

Lemma preserves_bind {A B : Type} (m : M A) (f : A -> M B) :
  preserves m -> (forall a, preserves (f a)) -> preserves (bind m f).
Proof.
  intros Hm Hf s. unfold bind.
  specialize (Hm s). destruct (m s) as [[a | e] s']; simpl in Hm; subst s'.
  - apply Hf.
  - reflexivity.
Qed.

Lemma preserves_if {A : Type} (b : bool) (m1 m2 : M A) :
  preserves m1 -> preserves m2 -> preserves (if b then m1 else m2).
Proof. destruct b; auto. Qed.

Lemma preserves_mapM {A : Type} (f : value -> M A) (l : list value) :
  (forall x, preserves (f x)) -> preserves (mapM f l).
Proof.
  intros Hf. induction l as [| x rest IH]; simpl.
  - apply preserves_ret.
  - apply preserves_bind; [apply Hf | intros y].
    apply preserves_bind; [exact IH | intros ys].
    apply preserves_ret.
Qed.

Lemma preserves_array_map {A : Type} (a : value) (f : value -> M A) :
  (forall x, preserves (f x)) -> preserves (array_map a f).
Proof.
  intros Hf. destruct a; simpl;
    first [apply preserves_lift | apply preserves_mapM; exact Hf].
Qed.

Create HintDb frame.
#[local] Hint Resolve preserves_ret preserves_lift preserves_read_items
  preserves_useRouter preserves_if : frame.

(** Walks a computation written with [<-] and closes every step. *)
Ltac frame_steps :=
  repeat first
    [ apply preserves_bind; [| intro]
    | apply preserves_array_map; intro
    | apply preserves_if
    | solve [auto with frame] ].

Lemma preserves_render_sublink (router sublink : value) :
  preserves (render_sublink router sublink).
Proof. unfold render_sublink. frame_steps. Qed.

#[local] Hint Resolve preserves_render_sublink : frame.

Lemma preserves_render_link (router link : value) :
  preserves (render_link router link).
Proof. unfold render_link. frame_steps. Qed.

#[local] Hint Resolve preserves_render_link : frame.

Lemma preserves_render_group (router item : value) :
  preserves (render_group router item).
Proof. unfold render_group. frame_steps. Qed.

#[local] Hint Resolve preserves_render_group : frame.

Lemma preserves_SideNav : preserves SideNav.
Proof. unfold SideNav. frame_steps. Qed.

(** Running the component again in the store a first run left behind gives
    the same outcome and the same store, for any store at all. *)
Lemma SideNav_rerun (s : store) : SideNav (snd (SideNav s)) = SideNav s.
Proof. rewrite preserves_SideNav. reflexivity. Qed.

(** The error branch is live: a section without [links] makes
    [item.links.map] throw. *)
Example SideNav_throws_without_links :
  fst (SideNav {| module_items := Arr [Obj [("title", Str "Code")]];
                  router_context := router_at "/" |})
  = Throw (TypeError "Cannot read properties of undefined (reading 'map')").
Proof. reflexivity. Qed.

(** So does a router that is not there. *)
Example SideNav_throws_without_router :
  fst (SideNav {| module_items := items; router_context := Undefined |})
  = Throw (TypeError "Cannot read properties of undefined (reading 'pathname')").
Proof. reflexivity. Qed.

(** ** The component on well-formed configurations

    On the object literals of any typed configuration, at any route, the
    component returns the tree of [Typed.nav] and leaves the store as it
    found it. *)

Lemma mapM_encoded {A B : Type} (enc : A -> value) (f : value -> M B) (g : A -> B)
      (l : list A) (s : store) :
  (forall x, f (enc x) s = (Ok (g x), s)) ->
  mapM f (map enc l) s = (Ok (map g l), s).
Proof.
  intros Hf. induction l as [| x rest IH]; simpl; [reflexivity |].
  unfold bind. rewrite Hf, IH. reflexivity.
Qed.

Lemma render_sublink_typed (p : string) (sl : Config.SubLink) (s : store) :
  render_sublink (router_at p) (Config.encode_sublink sl) s
  = (Ok (Typed.sub_item p sl), s).
Proof. reflexivity. Qed.

Lemma render_link_typed (p : string) (l : Config.NavigationLink) (s : store) :
  render_link (router_at p) (Config.encode_link l) s
  = (Ok (Typed.link_item p l), s).
Proof.
  destruct l as [h c [subs |]]; [| reflexivity].
  unfold render_link, bind, lift; simpl.
  rewrite (mapM_encoded Config.encode_sublink _ (Typed.sub_item p));
    [reflexivity | intros sl; apply render_sublink_typed].
Qed.

Lemma render_group_typed (p : string) (sec : Config.NavigationSection) (s : store) :
  render_group (router_at p) (Config.encode_section sec) s
  = (Ok (Typed.group p sec), s).
Proof.
  destruct sec as [t ls].
  unfold render_group, bind, lift; simpl.
  rewrite (mapM_encoded Config.encode_link _ (Typed.link_item p));
    [reflexivity | intros l; apply render_link_typed].
Qed.

Theorem SideNav_typed (n : list Config.NavigationSection) (p : string) :
  SideNav (store_of n p) = (Ok (Typed.nav n p), store_of n p).
Proof.
  unfold SideNav, bind, useRouter, read_items; simpl.
  rewrite (mapM_encoded Config.encode_section _ (Typed.group p));
    [reflexivity | intros sec; apply render_group_typed].
Qed.

(** ** Reading the tree of a typed configuration

    What the observations of a rendered tree give on [Typed.nav], for any
    configuration: list items, groups and anchors follow the configuration
    entry by entry, and the route shows only in the class of list items. *)

Section TypedViews.

Variable p : string.

Lemma forest_frag_cons (c : vnode) (cs : list vnode) :
  forest (Frag (c :: cs)) = forest c ++ forest (Frag cs).
Proof. reflexivity. Qed.

Lemma forest_sub_items (subs : list Config.SubLink) :
  forest (Frag (map (Typed.sub_item p) subs)) = map (Spec.sub_at p) subs.
Proof.
  induction subs as [| sl rest IH]; [reflexivity |].
  rewrite map_cons, forest_frag_cons, IH. reflexivity.
Qed.

Lemma forest_link_item (l : Config.NavigationLink) :
  forest (Typed.link_item p l) = [Spec.link_at p l].
Proof.
  destruct l as [h c [subs |]]; [| reflexivity].
  transitivity
    [LI (Spec.entry_at p (h, c))
        ((forest (Frag (map (Typed.sub_item p) subs)) ++ []) ++ [])];
    [reflexivity |].
  now rewrite forest_sub_items, !app_nil_r.
Qed.

Lemma forest_link_items (ls : list Config.NavigationLink) :
  forest (Frag (map (Typed.link_item p) ls)) = map (Spec.link_at p) ls.
Proof.
  induction ls as [| l rest IH]; [reflexivity |].
  rewrite map_cons, forest_frag_cons, IH, forest_link_item. reflexivity.
Qed.

Lemma forest_group (s : Config.NavigationSection) :
  forest (Typed.group p s) = map (Spec.link_at p) (Config.links s).
Proof.
  change (forest (Typed.group p s))
    with ((forest (Frag (map (Typed.link_item p) (Config.links s))) ++ []) ++ []).
  now rewrite forest_link_items, !app_nil_r.
Qed.

Lemma groups_frag_cons (c : vnode) (cs : list vnode) :
  groups (Frag (c :: cs)) = groups c ++ groups (Frag cs).
Proof. reflexivity. Qed.

Lemma groups_group (s : Config.NavigationSection) :
  groups (Typed.group p s) = [Spec.group_at p s].
Proof.
  unfold Spec.group_at. rewrite <- forest_group. reflexivity.
Qed.

Lemma groups_nav (n : list Config.NavigationSection) :
  groups (Typed.nav n p) = map (Spec.group_at p) n.
Proof.
  transitivity (groups (Frag (map (Typed.group p) n)) ++ []); [reflexivity |].
  rewrite app_nil_r.
  induction n as [| s rest IH]; [reflexivity |].
  rewrite map_cons, groups_frag_cons, IH, groups_group. reflexivity.
Qed.

Lemma forest_nav (n : list Config.NavigationSection) :
  forest (Typed.nav n p) = map (Spec.link_at p) (flat_map Config.links n).
Proof.
  transitivity (forest (Frag (map (Typed.group p) n)) ++ []); [reflexivity |].
  rewrite app_nil_r.
  induction n as [| s rest IH]; [reflexivity |].
  rewrite map_cons, forest_frag_cons, IH, forest_group.
  simpl. now rewrite map_app.
Qed.

Lemma flatten_link_at (l : Config.NavigationLink) :
  flatten (Spec.link_at p l) = map (Spec.entry_at p) (Config.link_entries l).
Proof.
  unfold Spec.link_at, Config.link_entries. simpl. f_equal.
  induction (Config.sublinks l) as [| sl rest IH]; [reflexivity |].
  simpl. now rewrite IH.
Qed.

Lemma entries_nav (n : list Config.NavigationSection) :
  entries (Typed.nav n p) = map (Spec.entry_at p) (Config.menu_entries n).
Proof.
  unfold entries, Config.menu_entries. rewrite forest_nav.
  induction n as [| s rest IH]; [reflexivity |].
  simpl. rewrite !map_app, flat_map_app, IH. f_equal.
  induction (Config.links s) as [| l ls IHl]; [reflexivity |].
  change (flatten (Spec.link_at p l)
          ++ flat_map flatten (map (Spec.link_at p) ls)
          = map (Spec.entry_at p)
              (Config.link_entries l ++ flat_map Config.link_entries ls)).
  now rewrite map_app, IHl, flatten_link_at.
Qed.

Lemma anchors_frag_cons (c : vnode) (cs : list vnode) :
  anchors (Frag (c :: cs)) = anchors c ++ anchors (Frag cs).
Proof. reflexivity. Qed.

Lemma anchors_sub_items (subs : list Config.SubLink) :
  anchors (Frag (map (Typed.sub_item p) subs))
  = map (fun sl => Str (Config.sub_href sl)) subs.
Proof.
  induction subs as [| sl rest IH]; [reflexivity |].
  rewrite map_cons, anchors_frag_cons, IH. reflexivity.
Qed.

Lemma anchors_link_item (l : Config.NavigationLink) :
  anchors (Typed.link_item p l) = map (fun d => Str (fst d)) (Config.link_entries l).
Proof.
  destruct l as [h c [subs |]]; [| reflexivity].
  transitivity
    (Str h :: (anchors (Frag (map (Typed.sub_item p) subs)) ++ []) ++ []);
    [reflexivity |].
  rewrite anchors_sub_items, !app_nil_r.
  unfold Config.link_entries, Config.sublinks; simpl.
  now rewrite map_map.
Qed.

Lemma anchors_link_items (ls : list Config.NavigationLink) :
  anchors (Frag (map (Typed.link_item p) ls))
  = map (fun d => Str (fst d)) (flat_map Config.link_entries ls).
Proof.
  induction ls as [| l rest IH]; [reflexivity |].
  rewrite map_cons, anchors_frag_cons, IH, anchors_link_item.
  simpl. now rewrite map_app.
Qed.

Lemma anchors_nav (n : list Config.NavigationSection) :
  anchors (Typed.nav n p) = map Str (Config.hrefs n).
Proof.
  transitivity (anchors (Frag (map (Typed.group p) n)) ++ []); [reflexivity |].
  rewrite app_nil_r. unfold Config.hrefs, Config.menu_entries.
  rewrite map_map.
  induction n as [| s rest IH]; [reflexivity |].
  rewrite map_cons, anchors_frag_cons, IH.
  change (anchors (Typed.group p s))
    with ((anchors (Frag (map (Typed.link_item p) (Config.links s))) ++ []) ++ []).
  rewrite anchors_link_items, !app_nil_r.
  simpl. now rewrite map_app.
Qed.

Lemma strip_marks_map {A : Type} (q : string) (f : string -> A -> vnode) (l : list A) :
  (forall x, strip_marks (f p x) = strip_marks (f q x)) ->
  map strip_marks (map (f p) l) = map strip_marks (map (f q) l).
Proof. intros Hf. rewrite !map_map. apply map_ext. exact Hf. Qed.

Lemma unmark_class_at (q h : string) (k : value) :
  map unmark [("key", k); ("className", Typed.class_at p h)]
  = map unmark [("key", k); ("className", Typed.class_at q h)].
Proof.
  unfold Typed.class_at.
  destruct (String.eqb p h), (String.eqb q h); reflexivity.
Qed.

Lemma strip_marks_li (props : list (string * value)) (cs : list vnode) :
  strip_marks (Elem "li" props cs) = Elem "li" (map unmark props) (map strip_marks cs).
Proof. reflexivity. Qed.

Lemma strip_marks_sub_item (q : string) (sl : Config.SubLink) :
  strip_marks (Typed.sub_item p sl) = strip_marks (Typed.sub_item q sl).
Proof.
  unfold Typed.sub_item. rewrite !strip_marks_li.
  now rewrite (unmark_class_at q).
Qed.

Lemma strip_marks_nested_list (q : string) (l : Config.NavigationLink) :
  strip_marks (Typed.nested_list p l) = strip_marks (Typed.nested_list q l).
Proof.
  unfold Typed.nested_list. destruct (Config.sub l) as [subs |]; [| reflexivity].
  simpl. rewrite (strip_marks_map q Typed.sub_item); [reflexivity |].
  apply strip_marks_sub_item.
Qed.

Lemma strip_marks_link_item (q : string) (l : Config.NavigationLink) :
  strip_marks (Typed.link_item p l) = strip_marks (Typed.link_item q l).
Proof.
  unfold Typed.link_item. rewrite !strip_marks_li, (unmark_class_at q).
  cbn [map]. now rewrite (strip_marks_nested_list q).
Qed.

Lemma strip_marks_group (q : string) (s : Config.NavigationSection) :
  strip_marks (Typed.group p s) = strip_marks (Typed.group q s).
Proof.
  simpl. rewrite (strip_marks_map q Typed.link_item); [reflexivity |].
  apply strip_marks_link_item.
Qed.

Lemma strip_marks_nav (q : string) (n : list Config.NavigationSection) :
  strip_marks (Typed.nav n p) = strip_marks (Typed.nav n q).
Proof.
  simpl. rewrite (strip_marks_map q Typed.group); [reflexivity |].
  apply strip_marks_group.
Qed.

End TypedViews.

(** ** Evaluation on the static configuration *)

Lemma decode_items_navigation : Config.decode_items items = Some navigation.
Proof. reflexivity. Qed.

Lemma encode_items_navigation : Config.encode_items navigation = items.
Proof. reflexivity. Qed.

Lemma page_store_typed (p : string) : page_store p = store_of navigation p.
Proof. unfold page_store, store_of. now rewrite encode_items_navigation. Qed.

Lemma render_page (p : string) : render p = Ok (page p).
Proof. unfold render. now rewrite page_store_typed, SideNav_typed. Qed.

Lemma groups_page (p : string) :
  groups (page p) = map (Spec.group_at p) navigation.
Proof. apply groups_nav. Qed.

Lemma forest_page (p : string) :
  forest (page p) = map (Spec.link_at p) (flat_map Config.links navigation).
Proof. apply forest_nav. Qed.

Lemma entries_page (p : string) :
  entries (page p) = map (Spec.entry_at p) (Config.menu_entries navigation).
Proof. apply entries_nav. Qed.

Lemma anchors_page (p : string) :
  anchors (page p) = map Str (Config.hrefs navigation).
Proof. apply anchors_nav. Qed.

Lemma strip_marks_page (p q : string) :
  strip_marks (page p) = strip_marks (page q).
Proof. apply strip_marks_nav. Qed.

(** The observations see plain anchors and classes other than [active]. *)
Example anchors_sees_plain_anchor :
  anchors (Elem "nav" [] [Elem "a" [("href", Str "/elsewhere")] [Text "out"]])
  = [Str "/elsewhere"].
Proof. reflexivity. Qed.

Example strip_marks_keeps_other_classes :
  strip_marks (Elem "li" [("className", Str "collapsed")] [])
  <> strip_marks (Elem "li" [("className", Str "")] []).
Proof. discriminate. Qed.

(** ** List facts *)

Lemma distinctb_NoDup (l : list string) : distinctb l = true -> NoDup l.
Proof.
  induction l as [| x rest IH]; simpl; intros H.
  - constructor.
  - apply andb_true_iff in H. destruct H as [Hx Hrest].
    constructor; [| auto].
    intros Hin. apply negb_true_iff in Hx.
    assert (existsb (String.eqb x) rest = true) as Hex.
    { apply existsb_exists. exists x. split; [exact Hin | apply String.eqb_refl]. }
    congruence.
Qed.

Lemma filter_eqb_absent (p : string) (l : list string) :
  ~ In p l -> filter (String.eqb p) l = [].
Proof.
  induction l as [| x rest IH]; simpl; intros Hn; [reflexivity |].
  destruct (String.eqb_spec p x) as [-> | Hne].
  - exfalso. apply Hn. now left.
  - apply IH. intros Hin. apply Hn. now right.
Qed.

Lemma filter_eqb_NoDup (p : string) (l : list string) :
  NoDup l -> In p l -> filter (String.eqb p) l = [p].
Proof.
  induction 1 as [| x rest Hx Hnd IH]; simpl; intros Hin; [contradiction |].
  destruct (String.eqb_spec p x) as [-> | Hne].
  - now rewrite filter_eqb_absent.
  - destruct Hin as [-> | Hin]; [congruence | auto].
Qed.

Lemma is_marked_entry_at (p : string) (d : string * string) :
  is_marked (Spec.entry_at p d) = String.eqb p (fst d).
Proof.
  unfold is_marked, Spec.entry_at. simpl.
  destruct (String.eqb p (fst d)); reflexivity.
Qed.

Lemma marked_targets (p : string) (ds : list (string * string)) :
  map e_target (filter is_marked (map (Spec.entry_at p) ds))
  = map Str (filter (String.eqb p) (map fst ds)).
Proof.
  induction ds as [| d rest IH]; simpl; [reflexivity |].
  rewrite is_marked_entry_at.
  destruct (String.eqb p (fst d)); simpl; now rewrite IH.
Qed.

Lemma navigation_hrefs_distinct : NoDup (Config.hrefs navigation).
Proof. apply distinctb_NoDup. reflexivity. Qed.

Lemma sublinks_of_sub (l : Config.NavigationLink) (subs : list Config.SubLink) :
  Config.sub l = Some subs -> Config.sublinks l = subs.
Proof. unfold Config.sublinks. now intros ->. Qed.

Lemma sub_at_leaves (p : string) (subs : list Config.SubLink) :
  Forall2
    (fun k sl => exists c,
       k = LI (mkEntry (Str (Config.sub_href sl)) (Str (Config.sub_children sl)) c) [])
    (map (Spec.sub_at p) subs) subs.
Proof.
  induction subs as [| sl rest IH]; simpl; constructor; [| exact IH].
  eexists. reflexivity.
Qed.

(** ** The claims *)

(** C1. At every route [p] the rendered entries are exactly the configured
    ones, an entry carries the class [active] if and only if its target is
    string-equal to [p], and when [p] is a configured path the marked
    entries are that one entry and no other. *)
Theorem active_iff_current_path (p : string) :
  exists out,
    render p = Ok out /\
    map e_target (entries out) = map Str (Config.hrefs navigation) /\
    (forall e, In e (entries out) -> (is_marked e = true <-> e_target e = Str p)) /\
    (In p (Config.hrefs navigation) ->
     map e_target (filter is_marked (entries out)) = [Str p]).
Proof.
  exists (page p). rewrite entries_page.
  split; [apply render_page |].
  split; [unfold Config.hrefs; rewrite !map_map; reflexivity |].
  split.
  - intros e He. apply in_map_iff in He. destruct He as [d [<- _]].
    rewrite is_marked_entry_at. simpl. split.
    + intros Heq. apply String.eqb_eq in Heq. now subst.
    + intros Heq. injection Heq as ->. apply String.eqb_refl.
  - intros Hin. rewrite marked_targets.
    fold (Config.hrefs navigation).
    rewrite filter_eqb_NoDup; auto using navigation_hrefs_distinct.
Qed.

Lemma active_iff_current_path_witness :
  exists out,
    render "/docs/code/es6/math" = Ok out /\
    map e_target (filter is_marked (entries out)) = [Str "/docs/code/es6/math"].
Proof.
  destruct (active_iff_current_path "/docs/code/es6/math") as (out & Hr & _ & _ & Hone).
  exists out. split; [exact Hr |].
  apply Hone. vm_compute. tauto.
Defined.

(** C2. At every route, each link that has a [sub] array is rendered as a
    list item that contains one list item per sub-link, in order and
    directly below it; those items contain no further items. *)
Theorem sublinks_always_nested (p : string) :
  exists out,
    render p = Ok out /\
    forall s l subs,
      In s navigation -> In l (Config.links s) -> Config.sub l = Some subs ->
      exists c kids,
        In (LI (mkEntry (Str (Config.href l)) (Str (Config.children l)) c) kids)
           (forest out) /\
        Forall2
          (fun k sl => exists c',
             k = LI (mkEntry (Str (Config.sub_href sl)) (Str (Config.sub_children sl)) c') [])
          kids subs.
Proof.
  exists (page p). split; [apply render_page |].
  intros s l subs Hs Hl Hsub. rewrite forest_page.
  exists (Str (if String.eqb p (Config.href l) then "active" else "")),
         (map (Spec.sub_at p) subs).
  split.
  - apply in_map_iff. exists l. split.
    + unfold Spec.link_at. now rewrite (sublinks_of_sub l subs Hsub).
    + apply in_flat_map. exists s. split; assumption.
  - apply sub_at_leaves.
Qed.

Lemma sublinks_always_nested_witness :
  exists out,
    render "" = Ok out /\
    exists c kids,
      In (LI (mkEntry (Str "/docs/code/quality") (Str "Code Quality") c) kids)
         (forest out) /\
      Forall2
        (fun k sl => exists c',
           k = LI (mkEntry (Str (Config.sub_href sl)) (Str (Config.sub_children sl)) c') [])
        kids
        [Config.mkSubLink "/docs/code/quality/iterative-code" "Iterative Code";
         Config.mkSubLink "/docs/code/quality/variable-naming" "Variable Naming"].
Proof.
  destruct (sublinks_always_nested "") as (out & Hr & Hsub).
  exists out. split; [exact Hr |].
  apply (Hsub (nth 0 navigation (Config.mkSection "" []))
              (Config.mkLink "/docs/code/quality" "Code Quality"
                 (Some [Config.mkSubLink "/docs/code/quality/iterative-code" "Iterative Code";
                        Config.mkSubLink "/docs/code/quality/variable-naming" "Variable Naming"]))).
  - vm_compute. tauto.
  - vm_compute. tauto.
  - reflexivity.
Defined.

(** C3. The declared paths are pairwise distinct over the whole tree. *)
Theorem hrefs_pairwise_distinct : NoDup (Config.hrefs navigation).
Proof. apply distinctb_NoDup. reflexivity. Qed.

(** C4. Rendering twice in a row at the same route gives the same tree
    both times. *)
Theorem render_twice_same_output (p : string) :
  exists out,
    render p = Ok out /\
    fst (render_twice (page_store p)) = Ok (out, out).
Proof.
  exists (page p). split; [apply render_page |].
  unfold render_twice, bind.
  pose proof (preserves_SideNav (page_store p)) as Hs.
  pose proof (render_page p) as Hr. unfold render in Hr.
  destruct (SideNav (page_store p)) as [r s'] eqn:Hrun.
  simpl in Hs, Hr. subst r s'.
  rewrite Hrun. reflexivity.
Qed.

(** C5. At route [/docs/react/handling-state] the entry labelled
    "Handling State" is marked and the entry labelled "Introduction", whose
    target is [/docs/react], is not. *)
Theorem handling_state_scenario :
  exists out,
    render "/docs/react/handling-state" = Ok out /\
    In (mkEntry (Str "/docs/react/handling-state") (Str "Handling State") (Str "active"))
       (entries out) /\
    In (mkEntry (Str "/docs/react") (Str "Introduction") (Str "")) (entries out) /\
    (forall e, In e (entries out) ->
       e_label e = Str "Handling State" -> is_marked e = true) /\
    (forall e, In e (entries out) ->
       e_label e = Str "Introduction" -> is_marked e = false).
Proof.
  exists (page "/docs/react/handling-state").
  split; [apply render_page |].
  rewrite entries_page.
  split; [vm_compute; tauto |].
  split; [vm_compute; tauto |].
  split; intros e He Hl; apply in_map_iff in He; destruct He as [d [<- Hd]];
    simpl in Hl; injection Hl as Hl; rewrite is_marked_entry_at;
    simpl in Hd;
    repeat (destruct Hd as [<- | Hd]; [first [discriminate Hl | reflexivity] |]);
    contradiction.
Qed.

Lemma handling_state_scenario_witness :
  exists out,
    render "/docs/react/handling-state" = Ok out /\
    is_marked (mkEntry (Str "/docs/react") (Str "Introduction") (Str "")) = false.
Proof.
  destruct handling_state_scenario as (out & Hr & _ & Hin & _ & Hintro).
  exists out. split; [exact Hr |].
  apply Hintro; [exact Hin | reflexivity].
Defined.

(** C6. Rendering succeeds at every route: the outcome is a tree, never a
    thrown error. *)
Theorem render_total (p : string) :
  exists out, render p = Ok out.
Proof. exists (page p). apply render_page. Qed.

(** C7. At every route the anchor targets of the rendered tree, read off
    every [Link] and every plain [<a>] element, are, as a multiset, exactly
    the declared paths: each configured path is an anchor target and no
    anchor points anywhere else. *)
Theorem anchors_are_declared_hrefs (p : string) :
  exists out,
    render p = Ok out /\
    Permutation (anchors out) (map Str (Config.hrefs navigation)).
Proof.
  exists (page p). split; [apply render_page |].
  rewrite anchors_page. apply Permutation_refl.
Qed.

(** C8. Rendering leaves the configuration as it was: the store after a
    rendering is the store before it, so [items] still holds its build-time
    value and still reads as the same typed tree. *)
Theorem render_leaves_items_unchanged (p : string) :
  snd (SideNav (page_store p)) = page_store p /\
  module_items (snd (SideNav (page_store p))) = items /\
  Config.decode_items (module_items (snd (SideNav (page_store p)))) = Some navigation.
Proof.
  rewrite preserves_SideNav. repeat split.
Qed.

(** C9. Two routes give trees that differ at most in which list items
    carry the class [active]: once that mark is taken away the two trees
    are equal, every other class, prop, label, target and nesting
    included. *)
Theorem path_only_changes_marks (p1 p2 : string) :
  exists out1 out2,
    render p1 = Ok out1 /\ render p2 = Ok out2 /\
    strip_marks out1 = strip_marks out2.
Proof.
  exists (page p1), (page p2).
  split; [apply render_page |].
  split; [apply render_page |].
  apply strip_marks_page.
Qed.

(** C10. At every route the groups, the links of each group and the
    sub-links of each link come out in declaration order. *)
Theorem declaration_order_preserved (p : string) :
  exists out,
    render p = Ok out /\
    map group_outline (groups out) = map section_outline navigation.
Proof.
  exists (page p). split; [apply render_page |].
  rewrite groups_page. reflexivity.
Qed.

(** * Further properties of the component *)

(** ** [.map] with a callback that throws *)

Lemma mapM_encoded_then_throw {A B : Type} (enc : A -> value) (f : value -> M B)
      (g : A -> B) (pre : list A) (x0 : value) (post : list value)
      (s : store) (e : error) :
  (forall x, f (enc x) s = (Ok (g x), s)) ->
  f x0 s = (Throw e, s) ->
  mapM f (map enc pre ++ x0 :: post) s = (Throw e, s).
Proof.
  intros Hf Hx. induction pre as [| x rest IH]; simpl; unfold bind.
  - now rewrite Hx.
  - now rewrite Hf, IH.
Qed.

Lemma mapM_encoded_ext {A B : Type} (enc : A -> value) (f g : value -> M B)
      (l : list A) (s : store) :
  (forall x, In x l -> f (enc x) s = g (enc x) s) ->
  (forall x, In x l -> snd (g (enc x) s) = s) ->
  mapM f (map enc l) s = mapM g (map enc l) s.
Proof.
  intros Hfg Hs. induction l as [| x rest IH]; simpl; [reflexivity |].
  unfold bind. rewrite (Hfg x (or_introl eq_refl)).
  pose proof (Hs x (or_introl eq_refl)) as Hx.
  destruct (g (enc x) s) as [[y | e] s']; simpl in Hx; subst s'; [| reflexivity].
  rewrite IH; [reflexivity | |]; intros z Hz; [apply Hfg | apply Hs]; now right.
Qed.

(** X1. On every well-formed configuration and at every route, the list
    items that carry [active] are those whose target equals the route,
    one for each occurrence of the route among the declared paths: if a path
    is declared twice, both of its items are marked. *)
Theorem marks_on_any_configuration (n : list Config.NavigationSection) (p : string) :
  exists out,
    fst (SideNav (store_of n p)) = Ok out /\
    map e_target (entries out) = map Str (Config.hrefs n) /\
    map e_target (filter is_marked (entries out))
    = map Str (filter (String.eqb p) (Config.hrefs n)).
Proof.
  exists (Typed.nav n p). rewrite SideNav_typed, entries_nav. simpl.
  split; [reflexivity |]. split.
  - unfold Config.hrefs. rewrite !map_map. reflexivity.
  - apply marked_targets.
Qed.

(** X2. A section object without [links] makes the whole rendering throw,
    wherever it stands after well-formed sections and whatever follows it:
    no partial tree is returned. *)
Theorem section_without_links_throws
    (pre : list Config.NavigationSection) (fields : list (string * value))
    (post : list value) (p : string) :
  lookup "links" fields = None ->
  fst (SideNav {| module_items := Arr (map Config.encode_section pre ++ Obj fields :: post);
                  router_context := router_at p |})
  = Throw (TypeError "Cannot read properties of undefined (reading 'map')").
Proof.
  intros Hl. unfold SideNav, bind, useRouter, read_items; simpl.
  rewrite (mapM_encoded_then_throw Config.encode_section _ (Typed.group p) pre
             (Obj fields) post _
             (TypeError "Cannot read properties of undefined (reading 'map')"));
    [reflexivity | intros sec; apply render_group_typed |].
  unfold render_group, bind, lift; simpl. rewrite Hl.
  destruct (lookup "title" fields); reflexivity.
Qed.

Lemma section_without_links_throws_witness :
  fst (SideNav {| module_items :=
                    Arr (map Config.encode_section navigation
                         ++ Obj [("title", Str "More")] :: []);
                  router_context := router_at "/docs/react" |})
  = Throw (TypeError "Cannot read properties of undefined (reading 'map')").
Proof.
  apply (section_without_links_throws navigation [("title", Str "More")] [] "/docs/react").
  reflexivity.
Defined.

(** ** Rendering without a router *)

Lemma render_group_no_router_empty (sec : Config.NavigationSection) (s : store) :
  Config.links sec = [] ->
  render_group Undefined (Config.encode_section sec) s = (Ok (Typed.group "" sec), s).
Proof. destruct sec as [t ls]; simpl. intros ->. reflexivity. Qed.

Lemma render_group_no_router_link (sec : Config.NavigationSection) (s : store) :
  Config.links sec <> [] ->
  render_group Undefined (Config.encode_section sec) s
  = (Throw (TypeError "Cannot read properties of undefined (reading 'pathname')"), s).
Proof.
  destruct sec as [t [| l ls]]; simpl; [congruence | intros _].
  reflexivity.
Qed.

Lemma mapM_no_router (n : list Config.NavigationSection) (s : store) :
  mapM (render_group Undefined) (map Config.encode_section n) s
  = (if no_links n
     then Ok (map (Typed.group "") n)
     else Throw (TypeError "Cannot read properties of undefined (reading 'pathname')"),
     s).
Proof.
  induction n as [| sec rest IH]; [reflexivity |].
  change (no_links (sec :: rest))
    with (match Config.links sec with [] => true | _ :: _ => false end
          && no_links rest)%bool.
  cbn [map mapM]. unfold bind.
  destruct (Config.links sec) as [| l ls] eqn:Hl.
  - rewrite render_group_no_router_empty, IH by assumption.
    destruct (no_links rest); reflexivity.
  - rewrite render_group_no_router_link by congruence. reflexivity.
Qed.

Lemma no_links_flat_map (n : list Config.NavigationSection) :
  no_links n = true <-> flat_map Config.links n = [].
Proof.
  induction n as [| sec rest IH]; simpl; [tauto |].
  destruct (Config.links sec) as [| l ls]; simpl.
  - exact IH.
  - split; discriminate.
Qed.

(** X3. When [useRouter()] gives [undefined], the component still renders
    a configuration that has no link at all, and throws on reading
    [pathname] as soon as the configuration has one link: the router is
    touched only inside the callback of the links. *)
Theorem router_needed_only_for_links (n : list Config.NavigationSection) :
  (flat_map Config.links n = [] ->
   exists out,
     fst (SideNav {| module_items := Config.encode_items n;
                     router_context := Undefined |}) = Ok out) /\
  (flat_map Config.links n <> [] ->
   fst (SideNav {| module_items := Config.encode_items n;
                   router_context := Undefined |})
   = Throw (TypeError "Cannot read properties of undefined (reading 'pathname')")).
Proof.
  assert (forall s0 : store,
             router_context s0 = Undefined ->
             module_items s0 = Config.encode_items n ->
             fst (SideNav s0)
             = if no_links n
               then Ok (Typed.nav n "")
               else Throw (TypeError "Cannot read properties of undefined (reading 'pathname')"))
    as Hrun.
  { intros [its r] Hr Hi; simpl in Hr, Hi; subst.
    unfold SideNav, bind, useRouter, read_items; simpl.
    rewrite mapM_no_router. destruct (no_links n); reflexivity. }
  split; intros Hn; rewrite Hrun by reflexivity.
  - apply no_links_flat_map in Hn. rewrite Hn. eexists. reflexivity.
  - destruct (no_links n) eqn:Hb; [| reflexivity].
    apply no_links_flat_map in Hb. contradiction.
Qed.

Lemma router_needed_only_for_links_witness :
  fst (SideNav {| module_items := Config.encode_items navigation;
                  router_context := Undefined |})
  = Throw (TypeError "Cannot read properties of undefined (reading 'pathname')").
Proof.
  apply (proj2 (router_needed_only_for_links navigation)).
  discriminate.
Defined.

(** ** A router without a usable [pathname] *)

Section NoPathname.

Variable fields : list (string * value).
Hypothesis no_string_pathname : forall s, lookup "pathname" fields <> Some (Str s).
Variable p0 : string.

Lemma pathname_never_equal (h : string) :
  exists v, get (Obj fields) "pathname" = Ok v /\ strict_eq v (Str h) = Ok false.
Proof.
  unfold get. destruct (lookup "pathname" fields) as [v |] eqn:Hv.
  - exists v. split; [reflexivity |].
    destruct v; try reflexivity. exfalso. now apply (no_string_pathname s).
  - exists Undefined. split; reflexivity.
Qed.

Lemma render_sublink_no_pathname (sl : Config.SubLink) (s : store) :
  p0 <> Config.sub_href sl ->
  render_sublink (Obj fields) (Config.encode_sublink sl) s
  = render_sublink (router_at p0) (Config.encode_sublink sl) s.
Proof.
  intros Hne. destruct (pathname_never_equal (Config.sub_href sl)) as (v & Hg & He).
  unfold render_sublink, bind, lift. rewrite Hg. simpl. rewrite He.
  apply String.eqb_neq in Hne. now rewrite Hne.
Qed.

Lemma render_link_no_pathname (l : Config.NavigationLink) (s : store) :
  ~ In p0 (map fst (Config.link_entries l)) ->
  render_link (Obj fields) (Config.encode_link l) s
  = render_link (router_at p0) (Config.encode_link l) s.
Proof.
  intros Hn. destruct (pathname_never_equal (Config.href l)) as (v & Hg & He).
  assert (String.eqb p0 (Config.href l) = false) as Hne.
  { apply String.eqb_neq. intros ->. apply Hn. now left. }
  destruct l as [h c [subs |]]; unfold render_link, bind, lift; rewrite Hg; simpl in *;
    rewrite He, Hne; [| reflexivity].
  rewrite (mapM_encoded_ext Config.encode_sublink
             (render_sublink (Obj fields)) (render_sublink (router_at p0)));
    [reflexivity | |].
  - intros sl Hsl. apply render_sublink_no_pathname.
    intros ->. apply Hn. right. unfold Config.sublinks; simpl.
    rewrite map_map. apply in_map_iff. now exists sl.
  - intros sl _. now rewrite render_sublink_typed.
Qed.

Lemma render_group_no_pathname (sec : Config.NavigationSection) (s : store) :
  ~ In p0 (map fst (flat_map Config.link_entries (Config.links sec))) ->
  render_group (Obj fields) (Config.encode_section sec) s
  = render_group (router_at p0) (Config.encode_section sec) s.
Proof.
  intros Hn. destruct sec as [t ls]. unfold render_group, bind, lift; simpl in *.
  rewrite (mapM_encoded_ext Config.encode_link
             (render_link (Obj fields)) (render_link (router_at p0)));
    [reflexivity | |].
  - intros l Hl. apply render_link_no_pathname.
    intros Hin. apply Hn. rewrite in_map_iff in *.
    destruct Hin as (d & Hd & Hin). exists d. split; [exact Hd |].
    apply in_flat_map. now exists l.
  - intros l _. now rewrite render_link_typed.
Qed.

Lemma SideNav_no_pathname (n : list Config.NavigationSection) :
  ~ In p0 (Config.hrefs n) ->
  SideNav {| module_items := Config.encode_items n; router_context := Obj fields |}
  = (Ok (Typed.nav n p0),
     {| module_items := Config.encode_items n; router_context := Obj fields |}).
Proof.
  intros Hn. unfold SideNav, bind, useRouter, read_items; simpl.
  rewrite (mapM_encoded_ext Config.encode_section
             (render_group (Obj fields)) (render_group (router_at p0))).
  - rewrite (mapM_encoded Config.encode_section _ (Typed.group p0));
      [reflexivity | intros sec; apply render_group_typed].
  - intros sec Hsec. apply render_group_no_pathname.
    intros Hin. apply Hn. unfold Config.hrefs, Config.menu_entries.
    rewrite in_map_iff in *. destruct Hin as (d & Hd & Hin).
    exists d. split; [exact Hd |]. apply in_flat_map. now exists sec.
  - intros sec _. now rewrite render_group_typed.
Qed.

End NoPathname.

(** X4. A router object whose [pathname] is missing or is not a string
    does not make the component fail: it renders exactly the tree of a route
    that matches no declared path, with no list item marked. *)
Theorem no_pathname_renders_unmatched_route
    (n : list Config.NavigationSection) (fields : list (string * value)) (p0 : string) :
  (forall s, lookup "pathname" fields <> Some (Str s)) ->
  ~ In p0 (Config.hrefs n) ->
  exists out,
    fst (SideNav {| module_items := Config.encode_items n;
                    router_context := Obj fields |}) = Ok out /\
    fst (SideNav (store_of n p0)) = Ok out /\
    filter is_marked (entries out) = [].
Proof.
  intros Hf Hn. exists (Typed.nav n p0).
  rewrite (SideNav_no_pathname fields Hf p0 n Hn), SideNav_typed. simpl.
  split; [reflexivity |]. split; [reflexivity |].
  rewrite entries_nav.
  assert (forall ds, ~ In p0 (map fst ds) ->
                     filter is_marked (map (Spec.entry_at p0) ds) = []) as Hnone.
  { induction ds as [| d rest IH]; simpl; intros Hd; [reflexivity |].
    rewrite is_marked_entry_at.
    destruct (String.eqb_spec p0 (fst d)) as [-> | _]; [exfalso; apply Hd; now left |].
    apply IH. intros Hin. apply Hd. now right. }
  now apply Hnone.
Qed.

Lemma no_pathname_renders_unmatched_route_witness :
  exists out,
    fst (SideNav {| module_items := Config.encode_items navigation;
                    router_context := Obj [("route", Str "/404")] |}) = Ok out /\
    fst (SideNav (store_of navigation "/")) = Ok out /\
    filter is_marked (entries out) = [].
Proof.
  apply (no_pathname_renders_unmatched_route navigation [("route", Str "/404")] "/").
  - intros s. discriminate.
  - vm_compute. intuition discriminate.
Defined.

(** ** The guard [link.sub && ...] *)

(** X5. A link object whose [sub] is absent or falsy ([undefined], [null],
    [false], the empty string) renders without a nested list and without
    throwing, even when it has no [href]: the list item holds the [Link]
    and the falsy value itself. *)
Theorem falsy_sub_renders_no_nested_list
    (p : string) (fields : list (string * value)) (s : store) :
  truthy (Config.field "sub" (Obj fields)) = false ->
  exists cls,
    render_link (router_at p) (Obj fields) s
    = (Ok (Elem "li" [("key", Config.field "href" (Obj fields)); ("className", Str cls)]
             [Elem "Link" fields []; Expr (Config.field "sub" (Obj fields))]),
       s)
    /\ (cls = "active" <-> Config.field "href" (Obj fields) = Str p).
Proof.
  unfold Config.field, render_link, bind, lift, get; simpl. intros Hsub.
  destruct (lookup "href" fields) as [hv |], (lookup "sub" fields) as [sv |];
    simpl in *; try rewrite Hsub;
    try (destruct hv as [| | b | h | elems | fs]; simpl;
         try (destruct (String.eqb_spec p h) as [-> | Hne]));
    eexists; (split; [reflexivity |]);
    split; intros H; try discriminate H; try reflexivity; try congruence.
Qed.

Lemma falsy_sub_renders_no_nested_list_witness :
  exists cls,
    render_link (router_at "/docs/react")
      (Obj [("children", Str "Untitled"); ("sub", Null)]) (page_store "/docs/react")
    = (Ok (Elem "li" [("key", Undefined); ("className", Str cls)]
             [Elem "Link" [("children", Str "Untitled"); ("sub", Null)] [];
              Expr Null]),
       page_store "/docs/react")
    /\ (cls = "active" <-> Undefined = Str "/docs/react").
Proof.
  apply (falsy_sub_renders_no_nested_list "/docs/react"
           [("children", Str "Untitled"); ("sub", Null)] (page_store "/docs/react")).
  reflexivity.
Defined.

(** X6. The guard only tests truthiness: a [sub] that is truthy but not an
    array (a non-empty string, [true], an object) passes it and the call of
    [.map] throws. *)
Theorem truthy_non_array_sub_throws
    (p : string) (fields : list (string * value)) (s : store) :
  truthy (Config.field "sub" (Obj fields)) = true ->
  (forall elems, Config.field "sub" (Obj fields) <> Arr elems) ->
  render_link (router_at p) (Obj fields) s
  = (Throw (TypeError "map is not a function"), s).
Proof.
  unfold Config.field, render_link, bind, lift, get; simpl. intros Hsub Harr.
  destruct (lookup "sub" fields) as [sv |]; [| discriminate Hsub].
  assert (array_map sv (render_sublink (router_at p)) s
          = (Throw (TypeError "map is not a function"), s)) as Hmap.
  { destruct sv; try discriminate Hsub; try reflexivity.
    exfalso. now apply (Harr elems). }
  destruct (lookup "href" fields) as [hv |]; simpl;
    try (destruct hv; simpl); rewrite Hsub, Hmap; reflexivity.
Qed.

Lemma truthy_non_array_sub_throws_witness :
  render_link (router_at "/")
    (Obj [("href", Str "/docs"); ("sub", Str "/docs/more")]) (page_store "/")
  = (Throw (TypeError "map is not a function"), page_store "/").
Proof.
  apply (truthy_non_array_sub_throws "/"
           [("href", Str "/docs"); ("sub", Str "/docs/more")] (page_store "/")).
  - reflexivity.
  - intros elems. discriminate.
Defined.

(** ** The wrappers *)

(** X8. [TopNav] and [Callout] add no anchor and no list item of their
    own: the anchors and list items of the result are those of what was
    passed in, the title of a callout coming before its children. *)
Theorem wrappers_keep_content (title children : vnode) :
  anchors (TopNav children) = anchors children /\
  forest (TopNav children) = forest children /\
  anchors (Callout title children) = anchors title ++ anchors children /\
  forest (Callout title children) = forest title ++ forest children.
Proof.
  unfold TopNav, Callout. cbn -[String.eqb]. cbn [String.eqb Ascii.eqb Bool.eqb].
  rewrite !app_nil_r. repeat split.
Qed.

(** * The documented helpers *)

(** ** [slice], [takeRight] and [removeByIndex] *)

Section SliceFacts.

Context {A : Type} {E : StrictEq A}.
Local Open Scope Z_scope.

Lemma relative_bounds (l i : Z) : 0 <= l -> 0 <= ES6Array.relative l i <= l.
Proof. unfold ES6Array.relative. destruct (Z.ltb_spec i 0); lia. Qed.

Lemma len_nonneg (arr : list A) : 0 <= ES6Array.len arr.
Proof. unfold ES6Array.len. lia. Qed.

Lemma slice_prefix (arr : list A) (stop : Z) :
  ES6Array.slice arr 0 stop
  = firstn (Z.to_nat (ES6Array.relative (ES6Array.len arr) stop)) arr.
Proof.
  unfold ES6Array.slice.
  pose proof (len_nonneg arr) as Hl.
  pose proof (relative_bounds (ES6Array.len arr) stop Hl) as Hb.
  replace (ES6Array.relative (ES6Array.len arr) 0) with 0
    by (unfold ES6Array.relative; simpl; lia).
  simpl skipn. f_equal. lia.
Qed.

Lemma slice_suffix (arr : list A) (start : Z) :
  ES6Array.slice arr start (ES6Array.len arr)
  = skipn (Z.to_nat (ES6Array.relative (ES6Array.len arr) start)) arr.
Proof.
  unfold ES6Array.slice.
  pose proof (len_nonneg arr) as Hl.
  pose proof (relative_bounds (ES6Array.len arr) start Hl) as Hb.
  replace (ES6Array.relative (ES6Array.len arr) (ES6Array.len arr))
    with (ES6Array.len arr) by (unfold ES6Array.relative; destruct (Z.ltb_spec (ES6Array.len arr) 0); lia).
  apply firstn_all2. rewrite length_skipn. unfold ES6Array.len in *. lia.
Qed.

Lemma removeByIndex_split (arr : list A) (index : Z) :
  ES6Array.removeByIndex arr index
  = firstn (Z.to_nat (ES6Array.relative (ES6Array.len arr) index)) arr
    ++ skipn (Z.to_nat (ES6Array.relative (ES6Array.len arr) (index + 1))) arr.
Proof.
  unfold ES6Array.removeByIndex, ES6Array.slice_from.
  now rewrite slice_prefix, slice_suffix.
Qed.

(** X9. [takeRight(arr, n)] with [0 <= n <= arr.length] returns the last
    [n] elements, in order; without [n] it returns the last element alone
    (nothing for an empty array). *)
Theorem takeRight_in_range (arr : list A) (n : Z) :
  0 <= n <= ES6Array.len arr ->
  ES6Array.takeRight arr (Some n) = skipn (length arr - Z.to_nat n) arr /\
  length (ES6Array.takeRight arr (Some n)) = Z.to_nat n /\
  ES6Array.takeRight arr None = skipn (length arr - 1) arr.
Proof.
  intros Hn. unfold ES6Array.takeRight. rewrite !slice_suffix.
  unfold ES6Array.relative, ES6Array.len in *.
  assert (skipn (Z.to_nat (if Z.of_nat (length arr) - n <? 0
                           then Z.max (Z.of_nat (length arr) + (Z.of_nat (length arr) - n)) 0
                           else Z.min (Z.of_nat (length arr) - n) (Z.of_nat (length arr)))) arr
          = skipn (length arr - Z.to_nat n) arr) as ->.
  { f_equal. destruct (Z.ltb_spec (Z.of_nat (length arr) - n) 0); lia. }
  split; [reflexivity |]. split; [rewrite length_skipn; lia |].
  destruct arr as [| x rest]; [reflexivity |].
  f_equal. cbn [length].
  destruct (Z.ltb_spec (Z.of_nat (S (length rest)) - 1) 0); lia.
Qed.

(** X10. Outside that range [takeRight] does not saturate: a count of
    zero or less gives the empty array, and a count above the length counts
    the start from the end again, so that asking for more elements than
    there are returns only the last [n - length] of them until [n] reaches
    twice the length. *)
Theorem takeRight_out_of_range (arr : list A) (n : Z) :
  (n <= 0 -> ES6Array.takeRight arr (Some n) = []) /\
  (ES6Array.len arr < n ->
   ES6Array.takeRight arr (Some n)
   = skipn (Z.to_nat (Z.max (2 * ES6Array.len arr - n) 0)) arr /\
   Z.of_nat (length (ES6Array.takeRight arr (Some n)))
   = Z.min (n - ES6Array.len arr) (ES6Array.len arr)).
Proof.
  unfold ES6Array.takeRight. rewrite slice_suffix.
  unfold ES6Array.relative, ES6Array.len. split; intros Hn.
  - apply skipn_all2.
    destruct (Z.ltb_spec (Z.of_nat (length arr) - n) 0); lia.
  - assert (Z.to_nat (if Z.of_nat (length arr) - n <? 0
                      then Z.max (Z.of_nat (length arr) + (Z.of_nat (length arr) - n)) 0
                      else Z.min (Z.of_nat (length arr) - n) (Z.of_nat (length arr)))
            = Z.to_nat (Z.max (2 * Z.of_nat (length arr) - n) 0)) as ->.
    { destruct (Z.ltb_spec (Z.of_nat (length arr) - n) 0); lia. }
    split; [reflexivity |]. rewrite length_skipn. lia.
Qed.

End SliceFacts.

Lemma takeRight_in_range_witness :
  ES6Array.takeRight [1; 2; 3]%Z (Some 2%Z) = [2; 3]%Z /\
  ES6Array.takeRight [1; 2; 3]%Z None = [3]%Z.
Proof.
  destruct (takeRight_in_range [1; 2; 3]%Z 2%Z) as (H1 & _ & H2).
  - unfold ES6Array.len; simpl; lia.
  - split; [exact H1 | exact H2].
Defined.

Lemma takeRight_out_of_range_witness :
  ES6Array.takeRight [1; 2; 3]%Z (Some 5%Z) = [2; 3]%Z.
Proof.
  destruct (proj2 (takeRight_out_of_range [1; 2; 3]%Z 5%Z)) as [H _].
  - unfold ES6Array.len; simpl; lia.
  - exact H.
Defined.

(** ** [removeByIndex] *)

Section RemoveFacts.

Context {A : Type} {E : StrictEq A}.
Local Open Scope Z_scope.

(** X11. [removeByIndex(arr, index)] with [0 <= index < arr.length]
    removes the element at [index] and nothing else; with an index at or
    beyond the length it returns the array unchanged. *)
Theorem removeByIndex_in_range (arr : list A) (index : Z) :
  0 <= index ->
  ES6Array.removeByIndex arr index
  = firstn (Z.to_nat index) arr ++ skipn (S (Z.to_nat index)) arr /\
  (index < ES6Array.len arr ->
   S (length (ES6Array.removeByIndex arr index)) = length arr) /\
  (ES6Array.len arr <= index -> ES6Array.removeByIndex arr index = arr).
Proof.
  intros Hi. rewrite removeByIndex_split.
  unfold ES6Array.relative, ES6Array.len.
  destruct (Z.ltb_spec index 0); [lia |].
  destruct (Z.ltb_spec (index + 1) 0); [lia |].
  assert (firstn (Z.to_nat (Z.min index (Z.of_nat (length arr)))) arr
          = firstn (Z.to_nat index) arr) as ->.
  { destruct (Z.le_gt_cases index (Z.of_nat (length arr))).
    - f_equal. lia.
    - rewrite !firstn_all2 by lia. reflexivity. }
  assert (skipn (Z.to_nat (Z.min (index + 1) (Z.of_nat (length arr)))) arr
          = skipn (S (Z.to_nat index)) arr) as ->.
  { destruct (Z.le_gt_cases (index + 1) (Z.of_nat (length arr))).
    - f_equal. lia.
    - rewrite !skipn_all2 by lia. reflexivity. }
  split; [reflexivity |]. split; intros Hl.
  - rewrite length_app, length_firstn, length_skipn. lia.
  - rewrite firstn_all2, skipn_all2 by lia. apply app_nil_r.
Qed.

(** X12. [removeByIndex(arr, -1)] does not remove the last element: it
    returns the array without its last element followed by the whole
    array, so a non-empty array comes back almost twice as long. *)
Theorem removeByIndex_minus_one_duplicates (arr : list A) :
  ES6Array.removeByIndex arr (-1) = removelast arr ++ arr /\
  (arr <> [] ->
   length (ES6Array.removeByIndex arr (-1)) = (2 * length arr - 1)%nat).
Proof.
  rewrite removeByIndex_split.
  unfold ES6Array.relative, ES6Array.len. simpl (-1 + 1).
  change (0 <? 0) with false. change (-1 <? 0) with true. cbv iota.
  replace (Z.to_nat (Z.min 0 (Z.of_nat (length arr)))) with 0%nat by lia.
  replace (Z.to_nat (Z.max (Z.of_nat (length arr) + -1) 0))
    with (pred (length arr)) by lia.
  rewrite <- removelast_firstn_len. simpl skipn.
  split; [reflexivity |]. intros Hne.
  rewrite length_app, removelast_firstn_len, length_firstn.
  destruct arr; [congruence | simpl; lia].
Qed.

(** X13. Any other negative index counts from the end: for
    [-arr.length <= index <= -2] the element at [arr.length + index] is
    removed; below [-arr.length] the array comes back unchanged. *)
Theorem removeByIndex_negative (arr : list A) (index : Z) :
  index <= -2 ->
  (- ES6Array.len arr <= index ->
   ES6Array.removeByIndex arr index
   = firstn (Z.to_nat (ES6Array.len arr + index)) arr
     ++ skipn (S (Z.to_nat (ES6Array.len arr + index))) arr) /\
  (index < - ES6Array.len arr -> ES6Array.removeByIndex arr index = arr).
Proof.
  intros Hi. rewrite removeByIndex_split.
  unfold ES6Array.relative, ES6Array.len.
  destruct (Z.ltb_spec index 0); [| lia].
  destruct (Z.ltb_spec (index + 1) 0); [| lia].
  split; intros Hl.
  - f_equal; f_equal; lia.
  - replace (Z.to_nat (Z.max (Z.of_nat (length arr) + index) 0)) with 0%nat by lia.
    replace (Z.to_nat (Z.max (Z.of_nat (length arr) + (index + 1)) 0)) with 0%nat by lia.
    reflexivity.
Qed.

End RemoveFacts.

Lemma removeByIndex_in_range_witness :
  ES6Array.removeByIndex [10; 20; 30]%Z 1%Z = [10; 30]%Z.
Proof.
  destruct (removeByIndex_in_range [10; 20; 30]%Z 1%Z) as (H & _ & _).
  - lia.
  - exact H.
Defined.

Lemma removeByIndex_minus_one_duplicates_witness :
  ES6Array.removeByIndex [1; 2; 3]%Z (-1)%Z = [1; 2; 1; 2; 3]%Z.
Proof.
  exact (proj1 (removeByIndex_minus_one_duplicates [1; 2; 3]%Z)).
Defined.

Lemma removeByIndex_negative_witness :
  ES6Array.removeByIndex [1; 2; 3]%Z (-2)%Z = [1; 3]%Z.
Proof.
  destruct (removeByIndex_negative [1; 2; 3]%Z (-2)%Z) as (H & _).
  - lia.
  - apply H. unfold ES6Array.len. simpl. lia.
Defined.

(** ** [countOccurrences], [indexOfAll] and [filterNonUnique] *)

Section CountFacts.

Context {A : Type} {E : StrictEq A} {N : WithNaN A}.
Local Open Scope Z_scope.

Variable val : A.

(** The number of elements that are [=== val], as a list fact. *)
Local Abbreviation hits arr := (length (filter (fun v => strict v val) arr)).

Lemma strict_true (x y : A) : strict x y = true <-> x = y /\ is_nan y = false.
Proof.
  unfold strict. rewrite andb_true_iff, negb_true_iff, same_eq.
  split; intros [H1 H2]; subst; tauto.
Qed.

Lemma hits_zero (arr : list A) :
  hits arr = 0%nat <-> is_nan val = true \/ ~ In val arr.
Proof.
  induction arr as [| x rest IH]; simpl; [tauto |].
  destruct (strict x val) eqn:Hx; simpl.
  - apply strict_true in Hx. destruct Hx as [-> Hn].
    split; [discriminate |]. intros [H | H]; [congruence | exfalso; apply H; now left].
  - rewrite IH. split; [| tauto].
    intros [Hn | Hn]; [now left |].
    destruct (is_nan val) eqn:Hv; [now left | right].
    intros [-> | Hin]; [| tauto].
    assert (strict val val = true) as Ht by (apply strict_true; tauto). congruence.
Qed.

Lemma count_from (i : Z) (arr : list A) (acc : Z) :
  ES6Array.reduce_from (fun a v _ => if strict v val then a + 1 else a) i arr acc
  = acc + Z.of_nat (hits arr).
Proof.
  revert i acc. induction arr as [| x rest IH]; intros i acc; simpl; [lia |].
  rewrite IH. destruct (strict x val); simpl length; lia.
Qed.

Lemma collect_acc (i : Z) (arr : list A) (acc : list Z) :
  ES6Array.reduce_from (fun acc el i => if strict el val then acc ++ [i] else acc) i arr acc
  = acc ++ ES6Array.reduce_from
             (fun acc el i => if strict el val then acc ++ [i] else acc) i arr [].
Proof.
  revert i acc. induction arr as [| x rest IH]; intros i acc; simpl.
  - now rewrite app_nil_r.
  - destruct (strict x val); [| apply IH].
    rewrite (IH (i + 1) (acc ++ [i])), (IH (i + 1) [i]). now rewrite <- app_assoc.
Qed.

Lemma collect_cons (i : Z) (x : A) (rest : list A) :
  ES6Array.reduce_from (fun acc el i => if strict el val then acc ++ [i] else acc)
    i (x :: rest) []
  = (if strict x val then [i] else [])
    ++ ES6Array.reduce_from
         (fun acc el i => if strict el val then acc ++ [i] else acc) (i + 1) rest [].
Proof.
  simpl. destruct (strict x val); [apply collect_acc | reflexivity].
Qed.

Lemma collect_length (i : Z) (arr : list A) :
  length (ES6Array.reduce_from
            (fun acc el i => if strict el val then acc ++ [i] else acc) i arr [])
  = hits arr.
Proof.
  revert i. induction arr as [| x rest IH]; intros i; [reflexivity |].
  rewrite collect_cons, length_app, IH. simpl filter.
  destruct (strict x val); reflexivity.
Qed.

Lemma collect_In (i j : Z) (arr : list A) :
  In j (ES6Array.reduce_from
          (fun acc el i => if strict el val then acc ++ [i] else acc) i arr [])
  <-> i <= j /\ nth_error arr (Z.to_nat (j - i)) = Some val /\ is_nan val = false.
Proof.
  revert i. induction arr as [| x rest IH]; intros i.
  - simpl. split; [tauto | intros (_ & H & _)]. now destruct (Z.to_nat (j - i)).
  - rewrite collect_cons, in_app_iff, IH.
    destruct (Z.eq_dec j i) as [-> | Hne].
    + replace (Z.to_nat (i - i)) with 0%nat by lia. simpl nth_error.
      destruct (strict x val) eqn:Hx.
      * apply strict_true in Hx. destruct Hx as [-> Hn].
        split; [intros _; repeat split; [lia | exact Hn] |].
        intros _. left. now left.
      * split; [intros [[] | [Hlt _]]; lia |].
        intros (_ & Heq & Hn). injection Heq as ->.
        assert (strict val val = true) as Ht by (apply strict_true; tauto). congruence.
    + split.
      * intros [Hin | (Hle & Hnth & Hn)].
        -- destruct (strict x val); simpl in Hin; intuition lia.
        -- split; [lia |]. split; [| exact Hn].
           replace (Z.to_nat (j - i)) with (S (Z.to_nat (j - (i + 1)))) by lia.
           exact Hnth.
      * intros (Hle & Hnth & Hn). right. split; [lia |]. split; [| exact Hn].
        replace (Z.to_nat (j - i)) with (S (Z.to_nat (j - (i + 1)))) in Hnth by lia.
        exact Hnth.
Qed.

Lemma collect_sorted (i : Z) (arr : list A) :
  Sorted.StronglySorted Z.lt
    (ES6Array.reduce_from
       (fun acc el i => if strict el val then acc ++ [i] else acc) i arr []).
Proof.
  revert i. induction arr as [| x rest IH]; intros i; [constructor |].
  rewrite collect_cons. destruct (strict x val); simpl; [| apply IH].
  constructor; [apply IH |].
  apply Forall_forall. intros j Hj. apply collect_In in Hj. lia.
Qed.

(** X14. [countOccurrences(arr, val)] is the number of positions that
    [indexOfAll(arr, val)] lists; it lies between [0] and the length.  It
    is [0] exactly when [val] does not occur or is [NaN], which [===] never
    finds: [countOccurrences([NaN], NaN)] is [0]. *)
Theorem countOccurrences_counts_indices (arr : list A) :
  ES6Array.countOccurrences arr val
  = Z.of_nat (length (ES6Array.indexOfAll arr val)) /\
  0 <= ES6Array.countOccurrences arr val <= ES6Array.len arr /\
  (ES6Array.countOccurrences arr val = 0 <-> is_nan val = true \/ ~ In val arr).
Proof.
  unfold ES6Array.countOccurrences, ES6Array.indexOfAll, ES6Array.reduce, ES6Array.len.
  rewrite count_from, collect_length.
  split; [lia |]. split.
  - pose proof (filter_length_le (fun v => strict v val) arr). lia.
  - rewrite <- hits_zero. lia.
Qed.

(** X15. [indexOfAll(arr, val)] lists, in increasing order and without
    repetition, exactly the indices at which [arr] holds [val], provided
    [val] is not [NaN]; for [NaN], and for a value that does not occur, it
    is empty. *)
Theorem indexOfAll_lists_positions (arr : list A) :
  (forall j, In j (ES6Array.indexOfAll arr val)
             <-> 0 <= j /\ nth_error arr (Z.to_nat j) = Some val /\ is_nan val = false) /\
  Sorted.StronglySorted Z.lt (ES6Array.indexOfAll arr val) /\
  (is_nan val = true \/ ~ In val arr -> ES6Array.indexOfAll arr val = []).
Proof.
  unfold ES6Array.indexOfAll, ES6Array.reduce. split; [| split].
  - intros j. rewrite collect_In. now rewrite Z.sub_0_r.
  - apply collect_sorted.
  - intros Hn. apply length_zero_iff_nil. rewrite collect_length. now apply hits_zero.
Qed.

Lemma indexOf_from_spec (i : Z) (arr : list A) :
  (hits arr = 0%nat -> ES6Array.indexOf_from i arr val = -1) /\
  (hits arr <> 0%nat ->
   i <= ES6Array.indexOf_from i arr val < i + Z.of_nat (length arr)).
Proof.
  revert i. induction arr as [| x rest IH]; intros i; simpl; [split; [reflexivity | congruence] |].
  destruct (strict x val); simpl.
  - split; [discriminate | lia].
  - destruct (IH (i + 1)) as [H0 H1]. split; [exact H0 | intros H; specialize (H1 H); lia].
Qed.

Lemma lastIndexOf_from_spec (i : Z) (arr : list A) :
  0 <= i ->
  (hits arr = 0%nat -> ES6Array.lastIndexOf_from i arr val = -1) /\
  (hits arr <> 0%nat -> i <= ES6Array.lastIndexOf_from i arr val).
Proof.
  revert i. induction arr as [| x rest IH]; intros i Hi; simpl;
    [split; [reflexivity | congruence] |].
  destruct (IH (i + 1)) as [H0 H1]; [lia |].
  destruct (Nat.eq_dec (hits rest) 0) as [Hz | Hnz].
  - rewrite (H0 Hz). simpl. destruct (strict x val); simpl; split; try lia; congruence.
  - specialize (H1 Hnz).
    destruct (Z.eqb_spec (ES6Array.lastIndexOf_from (i + 1) rest val) (-1)); [lia |].
    destruct (strict x val); simpl; split; try lia; congruence.
Qed.

Lemma first_is_last_iff_once (i : Z) (arr : list A) :
  0 <= i -> hits arr <> 0%nat ->
  (ES6Array.indexOf_from i arr val = ES6Array.lastIndexOf_from i arr val
   <-> hits arr = 1%nat).
Proof.
  revert i. induction arr as [| x rest IH]; intros i Hi Hh; simpl in *; [congruence |].
  destruct (lastIndexOf_from_spec (i + 1) rest) as [H0 H1]; [lia |].
  destruct (strict x val) eqn:Hx; simpl in *.
  - destruct (Nat.eq_dec (hits rest) 0) as [Hz | Hnz].
    + rewrite (H0 Hz). simpl. split; [lia | reflexivity].
    + specialize (H1 Hnz).
      destruct (Z.eqb_spec (ES6Array.lastIndexOf_from (i + 1) rest val) (-1)); [lia |].
      split; lia.
  - rewrite <- (IH (i + 1)) by (lia || assumption).
    destruct (Z.eqb_spec (ES6Array.lastIndexOf_from (i + 1) rest val) (-1)) as [-> | _];
      reflexivity.
Qed.

End CountFacts.

(** X16. [filterNonUnique(arr)] keeps, in order, the elements that occur
    once in [arr] (those whose [countOccurrences] is [1]) and, besides,
    every [NaN] of [arr] however often it occurs: [indexOf] and
    [lastIndexOf] both answer [-1] for it. *)
Theorem filterNonUnique_keeps_singles
    {A : Type} {E : StrictEq A} {N : WithNaN A} (arr : list A) (x : A) :
  In x (ES6Array.filterNonUnique arr)
  <-> In x arr /\ (is_nan x = true \/ ES6Array.countOccurrences arr x = 1%Z).
Proof.
  unfold ES6Array.filterNonUnique, ES6Array.countOccurrences, ES6Array.reduce.
  rewrite filter_In, count_from, Z.eqb_eq.
  unfold ES6Array.indexOf, ES6Array.lastIndexOf.
  destruct (Nat.eq_dec (length (filter (fun v => strict v x) arr)) 0) as [Hz | Hnz].
  - destruct (indexOf_from_spec x 0 arr) as [Hi _].
    destruct (lastIndexOf_from_spec x 0 arr ltac:(lia)) as [Hl _].
    rewrite (Hi Hz), (Hl Hz), Hz.
    split; intros [Hin H]; (split; [exact Hin |]); [| reflexivity].
    apply hits_zero in Hz. destruct Hz as [Hn | Hn]; [now left | contradiction].
  - rewrite (first_is_last_iff_once x 0 arr ltac:(lia) Hnz).
    split; intros [Hin H]; (split; [exact Hin |]).
    + right. lia.
    + destruct H as [Hn | Hc]; [| lia].
      exfalso. apply Hnz. apply hits_zero. now left.
Qed.

(** ** [union], [similarity] and [removeMultiple] *)

Section SetFacts.

Context {A : Type} {E : StrictEq A}.

Lemma includes_In (arr : list A) (x : A) : ES6Array.includes arr x = true <-> In x arr.
Proof.
  unfold ES6Array.includes. rewrite existsb_exists. split.
  - intros (y & Hy & Hs). apply same_eq in Hs. now subst.
  - intros Hin. exists x. split; [exact Hin | now apply same_eq].
Qed.

Lemma set_add_In (s : list A) (x y : A) :
  In y (ES6Array.set_add s x) <-> In y s \/ y = x.
Proof.
  unfold ES6Array.set_add. destruct (ES6Array.includes s x) eqn:Hx.
  - apply includes_In in Hx. split; [tauto | intros [H | ->]; assumption].
  - rewrite in_app_iff. simpl. intuition congruence.
Qed.

Lemma set_add_NoDup (s : list A) (x : A) : NoDup s -> NoDup (ES6Array.set_add s x).
Proof.
  intros Hs. unfold ES6Array.set_add. destruct (ES6Array.includes s x) eqn:Hx; [exact Hs |].
  assert (~ In x s) as Hn by (rewrite <- includes_In; congruence).
  apply NoDup_app; [exact Hs | repeat constructor; simpl; tauto |].
  intros y Hy [<- | []]. contradiction.
Qed.

Lemma fold_set_add (xs s : list A) :
  NoDup s ->
  NoDup (fold_left ES6Array.set_add xs s) /\
  (forall y, In y (fold_left ES6Array.set_add xs s) <-> In y s \/ In y xs).
Proof.
  revert s. induction xs as [| x rest IH]; intros s Hs; simpl.
  - split; [exact Hs | tauto].
  - destruct (IH (ES6Array.set_add s x) (set_add_NoDup s x Hs)) as [Hnd Hin].
    split; [exact Hnd |]. intros y. rewrite Hin, set_add_In. intuition congruence.
Qed.

Lemma fold_set_add_fresh (xs s : list A) :
  NoDup (s ++ xs) -> fold_left ES6Array.set_add xs s = s ++ xs.
Proof.
  revert s. induction xs as [| x rest IH]; intros s Hnd; simpl.
  - now rewrite app_nil_r.
  - assert (ES6Array.set_add s x = s ++ [x]) as ->.
    { unfold ES6Array.set_add. destruct (ES6Array.includes s x) eqn:Hx; [| reflexivity].
      apply includes_In in Hx. apply NoDup_remove_2 in Hnd.
      exfalso. apply Hnd. apply in_app_iff. now left. }
    rewrite IH; rewrite <- app_assoc; [reflexivity | exact Hnd].
Qed.

(** X17. [union(a, b)] has no repeated element, holds exactly the
    elements of [a] and of [b], and keeps them in order of first
    occurrence: when [a] followed by [b] has no repetition it is returned
    as it is. *)
Theorem union_is_duplicate_free (a b : list A) :
  NoDup (ES6Array.union a b) /\
  (forall x, In x (ES6Array.union a b) <-> In x a \/ In x b) /\
  (NoDup (a ++ b) -> ES6Array.union a b = a ++ b).
Proof.
  unfold ES6Array.union, ES6Array.new_Set.
  destruct (fold_set_add (a ++ b) [] (NoDup_nil A)) as [Hnd Hin].
  split; [exact Hnd |]. split.
  - intros x. rewrite Hin, in_app_iff. simpl. tauto.
  - intros H. now rewrite fold_set_add_fresh.
Qed.

(** X18. [similarity(a, b)] and [removeMultiple(a, b)] split [a] in two:
    the first keeps the elements of [a] that occur in [b], the second
    those that do not, and every element of [a] lands in exactly one of
    them. *)
Theorem similarity_and_removeMultiple_split (a b : list A) :
  (forall x, In x (ES6Array.similarity a b) <-> In x a /\ In x b) /\
  (forall x, In x (ES6Array.removeMultiple a b) <-> In x a /\ ~ In x b) /\
  (length (ES6Array.similarity a b) + length (ES6Array.removeMultiple a b)
   = length a)%nat.
Proof.
  unfold ES6Array.similarity, ES6Array.removeMultiple. split; [| split].
  - intros x. now rewrite filter_In, includes_In.
  - intros x. rewrite filter_In, negb_true_iff.
    split; intros [Ha Hb]; (split; [exact Ha |]).
    + intros Hin. apply includes_In in Hin. congruence.
    + destruct (ES6Array.includes b x) eqn:Hx; [| reflexivity].
      apply includes_In in Hx. contradiction.
  - induction a as [| y rest IH]; simpl; [reflexivity |].
    destruct (ES6Array.includes b y); simpl; lia.
Qed.

End SetFacts.

(** ** The four ways to repeat an array *)

Section RepeatFacts.

Context {A : Type} {E : StrictEq A}.
Local Open Scope Z_scope.

Lemma Array_of_length_ok (n : Z) :
  0 <= n < 2 ^ 32 -> ES6Array.Array_of_length n = ES6Array.Returns nat (Z.to_nat n).
Proof.
  intros Hn. unfold ES6Array.Array_of_length.
  destruct (Z.leb_spec 0 n); [| lia]. destruct (Z.ltb_spec n (2 ^ 32)); [| lia].
  reflexivity.
Qed.

Lemma fold_concat (l : list (list A)) (acc : list A) :
  fold_left (fun acc x => acc ++ x) l acc = acc ++ concat l.
Proof.
  revert acc. induction l as [| x rest IH]; intros acc; simpl.
  - now rewrite app_nil_r.
  - now rewrite IH, app_assoc.
Qed.

Lemma recursive_returns (a : list A) (fuel : nat) (n : Z) :
  0 <= n -> (Z.to_nat n < fuel)%nat ->
  ES6Array.makeRepeatedRecursive fuel a n = Some (concat (repeat a (Z.to_nat n))).
Proof.
  revert n. induction fuel as [| fuel IH]; intros n Hn Hf; [lia |].
  simpl. destruct (Z.eqb_spec n 0) as [-> | Hne]; [reflexivity |].
  rewrite IH by lia.
  replace (Z.to_nat n) with (S (Z.to_nat (n - 1))) by lia. reflexivity.
Qed.

Lemma recursive_never_returns (a : list A) (fuel : nat) (n : Z) :
  n < 0 -> ES6Array.makeRepeatedRecursive fuel a n = None.
Proof.
  revert n. induction fuel as [| fuel IH]; intros n Hn; [reflexivity |].
  simpl. destruct (Z.eqb_spec n 0); [lia |].
  now rewrite IH by lia.
Qed.

(** X19. On a dense array, for a count [n >= 0] whose result fits in
    an array ([n < 2^32] and [n * arr.length < 2^32]), the four documented
    methods return the same array: [n] copies of [arr] one after the other,
    of length [n * arr.length].  The recursive method needs [n + 1] nested
    calls. *)
Theorem makeRepeated_methods_agree (arr : list A) (n : Z) :
  0 <= n < 2 ^ 32 ->
  n * ES6Array.len arr < 2 ^ 32 ->
  let r := concat (repeat arr (Z.to_nat n)) in
  ES6Array.makeRepeated arr n = ES6Array.Returns _ r /\
  ES6Array.makeRepeatedRecursive (S (Z.to_nat n)) arr n = Some r /\
  ES6Array.makeRepeatedWithConcat arr n = ES6Array.Returns _ r /\
  ES6Array.makeRepeatedWithFill arr n = ES6Array.Returns _ r /\
  Z.of_nat (length r) = n * ES6Array.len arr /\
  Z.of_nat (length r) < 2 ^ 32.
Proof.
  intros Hn Hfit r.
  assert (Z.of_nat (length r) = n * ES6Array.len arr) as Hr.
  { assert (forall k, length (concat (repeat arr k)) = (k * length arr)%nat) as Hlen.
    { induction k as [| k IH]; simpl; [reflexivity |]. now rewrite length_app, IH. }
    subst r. unfold ES6Array.len.
    rewrite Hlen, Nat2Z.inj_mul, Z2Nat.id by lia. reflexivity. }
  unfold ES6Array.makeRepeated, ES6Array.makeRepeatedWithConcat,
    ES6Array.makeRepeatedWithFill.
  rewrite Z.max_l by lia. rewrite !Array_of_length_ok by lia.
  rewrite fold_concat. simpl app.
  repeat split; try reflexivity; try exact Hr.
  - apply recursive_returns; lia.
  - rewrite Hr. exact Hfit.
Qed.

(** X20. For a negative count the methods part ways: [makeRepeated]
    returns the empty array, [makeRepeatedWithConcat] and
    [makeRepeatedWithFill] are refused with a [RangeError], and
    [makeRepeatedRecursive] never reaches its base case, however deep the
    recursion is allowed to go. *)
Theorem makeRepeated_negative_count (arr : list A) (n : Z) :
  n < 0 ->
  ES6Array.makeRepeated arr n = ES6Array.Returns _ [] /\
  ES6Array.makeRepeatedWithConcat arr n = ES6Array.RangeError _ "Invalid array length" /\
  ES6Array.makeRepeatedWithFill arr n = ES6Array.RangeError _ "Invalid array length" /\
  forall fuel, ES6Array.makeRepeatedRecursive fuel arr n = None.
Proof.
  intros Hn.
  unfold ES6Array.makeRepeated, ES6Array.makeRepeatedWithConcat,
    ES6Array.makeRepeatedWithFill, ES6Array.Array_of_length.
  rewrite Z.max_r by lia.
  destruct (Z.leb_spec 0 n); [lia |]. simpl.
  repeat split. intros fuel. now apply recursive_never_returns.
Qed.

End RepeatFacts.

Lemma makeRepeated_methods_agree_witness :
  ES6Array.makeRepeated [1; 2]%Z 3%Z = ES6Array.Returns _ [1; 2; 1; 2; 1; 2]%Z /\
  ES6Array.makeRepeatedRecursive 4 [1; 2]%Z 3%Z = Some [1; 2; 1; 2; 1; 2]%Z.
Proof.
  destruct (makeRepeated_methods_agree [1; 2]%Z 3%Z) as (H1 & H2 & _).
  - lia.
  - unfold ES6Array.len. simpl. lia.
  - split; [exact H1 | exact H2].
Defined.

Lemma makeRepeated_negative_count_witness :
  ES6Array.makeRepeated [1; 2]%Z (-3)%Z = ES6Array.Returns _ [] /\
  ES6Array.makeRepeatedRecursive 1000 [1; 2]%Z (-3)%Z = None.
Proof.
  destruct (makeRepeated_negative_count [1; 2]%Z (-3)%Z) as (H1 & _ & _ & H4).
  - lia.
  - split; [exact H1 | apply H4].
Defined.

(** ** Bit tricks *)

Section BitFacts.

Local Open Scope Z_scope.

Lemma toInt32_range (n : Z) : - 2 ^ 31 <= ES6Misc.toInt32 n < 2 ^ 31.
Proof.
  unfold ES6Misc.toInt32.
  pose proof (Z.mod_pos_bound n (2 ^ 32) ltac:(lia)) as Hm.
  destruct (Z.ltb_spec (n mod 2 ^ 32) (2 ^ 31)); lia.
Qed.

Lemma toInt32_small (n : Z) : - 2 ^ 31 <= n < 2 ^ 31 -> ES6Misc.toInt32 n = n.
Proof.
  intros Hn. unfold ES6Misc.toInt32.
  destruct (Z.le_gt_cases 0 n).
  - rewrite Z.mod_small by lia. destruct (Z.ltb_spec n (2 ^ 31)); lia.
  - replace (n mod 2 ^ 32) with (n + 2 ^ 32).
    + destruct (Z.ltb_spec (n + 2 ^ 32) (2 ^ 31)); lia.
    + apply (Z.mod_unique _ _ (-1)); lia.
Qed.

Lemma toInt32_parity (n : Z) : ES6Misc.toInt32 n mod 2 = n mod 2.
Proof.
  unfold ES6Misc.toInt32.
  assert ((n mod 2 ^ 32) mod 2 = n mod 2) as Hm.
  { apply Z.mod_mod_divide. exists (2 ^ 31). reflexivity. }
  destruct (Z.ltb_spec (n mod 2 ^ 32) (2 ^ 31)); [exact Hm |].
  rewrite <- Hm.
  replace (n mod 2 ^ 32 - 2 ^ 32) with (n mod 2 ^ 32 + (- 2 ^ 31) * 2) by lia.
  apply Z.mod_add. lia.
Qed.

Lemma bit_and_one (n : Z) : ES6Misc.bit_and n 1 = n mod 2.
Proof.
  unfold ES6Misc.bit_and. rewrite (toInt32_small 1) by lia.
  change 1 with (Z.ones 1) at 1. rewrite Z.land_ones by lia.
  change (2 ^ 1) with 2. apply toInt32_parity.
Qed.

(** X21. [isOdd] and [isEven] decide the parity of every integer,
    negative ones and those beyond 32 bits included, and exactly one of
    them holds. *)
Theorem isOdd_isEven_decide_parity (n : Z) :
  ES6Misc.isOdd n = Z.odd n /\
  ES6Misc.isEven n = Z.even n /\
  ES6Misc.isEven n = negb (ES6Misc.isOdd n).
Proof.
  unfold ES6Misc.isOdd, ES6Misc.isEven. rewrite bit_and_one, Zmod_odd.
  rewrite <- Z.negb_odd. destruct (Z.odd n); repeat split.
Qed.

Lemma foundIndex_int32 (i : Z) :
  ES6Misc.foundIndex i = negb (ES6Misc.toInt32 i =? -1).
Proof.
  unfold ES6Misc.foundIndex, ES6Misc.bit_not, Z.lnot.
  f_equal. destruct (Z.eqb_spec (Z.pred (- ES6Misc.toInt32 i)) 0);
    destruct (Z.eqb_spec (ES6Misc.toInt32 i) (-1)); lia.
Qed.

End BitFacts.

Section FoundIndex.

Context {A : Type} {E : StrictEq A} {N : WithNaN A}.
Local Open Scope Z_scope.

(** X22. On an array (fewer than [2^32] elements) the test
    [foundIndex(arr.indexOf(x))] is true exactly when [x] occurs in [arr]
    and is not [NaN]: [~index] is zero for [-1] and for no valid index, and
    [indexOf] never finds [NaN], unlike [includes].  On integers in general
    [foundIndex] fails exactly for those that are [-1] as 32-bit values. *)
Theorem foundIndex_of_indexOf (arr : list A) (x : A) :
  ES6Array.len arr < 2 ^ 32 ->
  (ES6Misc.foundIndex (ES6Array.indexOf arr x) = true
   <-> In x arr /\ is_nan x = false) /\
  ES6Misc.foundIndex (ES6Array.indexOf arr x)
  = (ES6Array.includes arr x && negb (is_nan x))%bool /\
  (forall i, ES6Misc.foundIndex i = false <-> ES6Misc.toInt32 i = -1).
Proof.
  intros Hlen. unfold ES6Array.len in Hlen.
  assert (ES6Misc.foundIndex (ES6Array.indexOf arr x) = true
          <-> In x arr /\ is_nan x = false) as Hiff.
  { rewrite foundIndex_int32. unfold ES6Array.indexOf.
    destruct (indexOf_from_spec x 0 arr) as [H0 H1].
    destruct (Nat.eq_dec (length (filter (fun v => strict v x) arr)) 0) as [Hz | Hnz].
    - rewrite (H0 Hz). simpl. apply hits_zero in Hz.
      split; [discriminate |]. intros [Hin Hn]. destruct Hz; [congruence | contradiction].
    - specialize (H1 Hnz).
      assert (ES6Misc.toInt32 (ES6Array.indexOf_from 0 arr x) <> -1) as Hne.
      { unfold ES6Misc.toInt32. rewrite Z.mod_small by lia.
        destruct (Z.ltb_spec (ES6Array.indexOf_from 0 arr x) (2 ^ 31)); lia. }
      apply Z.eqb_neq in Hne. rewrite Hne. simpl. split; [intros _ | reflexivity].
      destruct (is_nan x) eqn:Hn.
      + exfalso. apply Hnz. apply hits_zero. now left.
      + split; [| reflexivity].
        destruct (ES6Array.includes arr x) eqn:Hi; [now apply includes_In |].
        exfalso. apply Hnz. apply hits_zero. right.
        rewrite <- includes_In. congruence. }
  split; [exact Hiff |]. split.
  - destruct (ES6Misc.foundIndex (ES6Array.indexOf arr x)) eqn:Hf.
    + destruct (proj1 Hiff eq_refl) as [Hin Hn].
      apply includes_In in Hin. now rewrite Hin, Hn.
    + destruct (ES6Array.includes arr x) eqn:Hi; [| reflexivity].
      destruct (is_nan x) eqn:Hn; [reflexivity |].
      apply includes_In in Hi.
      assert (false = true) by (apply Hiff; tauto). discriminate.
  - intros i. rewrite foundIndex_int32, negb_false_iff. apply Z.eqb_eq.
Qed.

End FoundIndex.

Lemma foundIndex_of_indexOf_witness :
  ES6Misc.foundIndex (ES6Array.indexOf [Int 1; NaN; Int 5] (Int 5)) = true /\
  ES6Misc.foundIndex (ES6Array.indexOf [Int 1; NaN; Int 5] NaN) = false /\
  ES6Array.includes [Int 1; NaN; Int 5] NaN = true.
Proof.
  destruct (foundIndex_of_indexOf [Int 1; NaN; Int 5] (Int 5)) as (H & _ & _);
    [unfold ES6Array.len; simpl; lia |].
  destruct (foundIndex_of_indexOf [Int 1; NaN; Int 5] NaN) as (_ & H' & _);
    [unfold ES6Array.len; simpl; lia |].
  split; [apply H; simpl; tauto |]. split; [rewrite H'; reflexivity | reflexivity].
Defined.

(** ** [omitProperty] *)

Lemma lookup_filter_other (prop k : string) (fields : list (string * value)) :
  k <> prop ->
  lookup k (filter (fun kv => negb (String.eqb (fst kv) prop)) fields) = lookup k fields.
Proof.
  intros Hk. induction fields as [| [k' v] rest IH]; simpl; [reflexivity |].
  destruct (String.eqb_spec k' prop) as [-> | Hne]; simpl.
  - destruct (String.eqb_spec k prop); [contradiction | exact IH].
  - now rewrite IH.
Qed.

Lemma lookup_filter_same (prop : string) (fields : list (string * value)) :
  lookup prop (filter (fun kv => negb (String.eqb (fst kv) prop)) fields) = None.
Proof.
  induction fields as [| [k' v] rest IH]; simpl; [reflexivity |].
  destruct (String.eqb_spec k' prop) as [-> | Hne]; simpl; [exact IH |].
  destruct (String.eqb_spec prop k'); [congruence | exact IH].
Qed.

(** X23. [omitProperty(prop, obj)] on an object returns an object that
    has no own property [prop] and whose other own properties are those of
    [obj], with the same values; omitting the same property again changes
    nothing. *)
Theorem omitProperty_removes_one_key (prop : string) (fields : list (string * value)) :
  exists rest,
    ES6Object.omitProperty prop (Obj fields) = Ok (Obj rest) /\
    lookup prop rest = None /\
    (forall k, k <> prop -> lookup k rest = lookup k fields) /\
    ES6Object.omitProperty prop (Obj rest) = Ok (Obj rest).
Proof.
  eexists. split; [reflexivity |]. split; [| split].
  - apply lookup_filter_same.
  - intros k Hk. now apply lookup_filter_other.
  - simpl. do 2 f_equal.
    induction fields as [| [k v] rest IH]; simpl; [reflexivity |].
    destruct (String.eqb k prop) eqn:Hk; simpl; [exact IH |].
    rewrite Hk. simpl. now rewrite IH.
Qed.

(** ** [binarySearch] *)

Section BinarySearch.

Local Open Scope Z_scope.

Variable array : list Z.
Variable search : Z.

Lemma item_Some (i v : Z) :
  Quality.item array i = Some v ->
  0 <= i < Z.of_nat (length array) /\ nth_error array (Z.to_nat i) = Some v.
Proof.
  unfold Quality.item. destruct (Z.ltb_spec i 0); [discriminate |].
  intros Hn. split; [| exact Hn].
  assert (Z.to_nat i < length array)%nat by (apply nth_error_Some; congruence).
  lia.
Qed.

Lemma item_in_bounds (i : Z) :
  0 <= i < Z.of_nat (length array) -> exists v, Quality.item array i = Some v.
Proof.
  intros Hi. unfold Quality.item. destruct (Z.ltb_spec i 0); [lia |].
  destruct (nth_error array (Z.to_nat i)) as [v |] eqn:Hn; [now exists v |].
  apply nth_error_None in Hn. lia.
Qed.

Lemma loop_sound (fuel : nat) (left right : Z) :
  Quality.binarySearch_loop fuel array search left right = Some true ->
  In search array.
Proof.
  revert left right. induction fuel as [| fuel IH]; intros left right; simpl;
    [discriminate |].
  destruct (Z.leb_spec left right); [| discriminate].
  destruct (Quality.item array ((left + right) / 2)) as [m |] eqn:Hm; [| apply IH].
  destruct (Z.eqb_spec m search) as [-> | _].
  - intros _. apply item_Some in Hm. destruct Hm as [_ Hn].
    eapply nth_error_In. exact Hn.
  - destruct (m <? search); apply IH.
Qed.

Lemma loop_terminates (fuel : nat) (left right : Z) :
  Z.max (right - left + 1) 0 < Z.of_nat fuel ->
  exists b, Quality.binarySearch_loop fuel array search left right = Some b.
Proof.
  revert left right. induction fuel as [| fuel IH]; intros left right Hf; [lia |].
  simpl. destruct (Z.leb_spec left right) as [Hle | _]; [| now exists false].
  assert (left <= (left + right) / 2 <= right) as Hmid
      by (Z.div_mod_to_equations; lia).
  destruct (Quality.item array ((left + right) / 2)) as [m |]; [| apply IH; lia].
  destruct (m =? search); [now exists true |].
  destruct (m <? search); apply IH; lia.
Qed.

Lemma sorted_nth (i j : nat) (a b : Z) :
  Sorted.StronglySorted Z.le array -> (i <= j)%nat ->
  nth_error array i = Some a -> nth_error array j = Some b -> a <= b.
Proof.
  intros Hs. revert i j. induction Hs as [| x rest Hs IH Hx]; intros i j Hij Ha Hb.
  - now destruct i.
  - destruct i as [| i], j as [| j]; simpl in *; try lia.
    + injection Ha as ->. injection Hb as ->. lia.
    + injection Ha as ->. rewrite Forall_forall in Hx.
      apply Hx. eapply nth_error_In. exact Hb.
    + apply (IH i j); [lia | assumption | assumption].
Qed.

Lemma loop_complete (fuel : nat) (left right : Z) :
  Sorted.StronglySorted Z.le array ->
  right - left + 1 < Z.of_nat fuel ->
  0 <= left -> right < Z.of_nat (length array) ->
  (exists k, left <= Z.of_nat k <= right /\ nth_error array k = Some search) ->
  Quality.binarySearch_loop fuel array search left right = Some true.
Proof.
  intros Hs. revert left right.
  induction fuel as [| fuel IH]; intros left right Hf Hl Hr (k & Hk & Hnth); [lia |].
  simpl. destruct (Z.leb_spec left right) as [Hle | ]; [| lia].
  assert (left <= (left + right) / 2 <= right) as Hmid
      by (Z.div_mod_to_equations; lia).
  destruct (item_in_bounds ((left + right) / 2)) as [m Hm]; [lia |].
  rewrite Hm. apply item_Some in Hm. destruct Hm as [_ Hm].
  destruct (Z.eqb_spec m search) as [| Hne]; [reflexivity |].
  destruct (Z.ltb_spec m search) as [Hlt | Hge].
  - apply IH; try lia. exists k. split; [| exact Hnth].
    destruct (Z.le_gt_cases (Z.of_nat k) ((left + right) / 2)) as [Hkm |]; [| lia].
    pose proof (sorted_nth k (Z.to_nat ((left + right) / 2)) search m Hs
                  ltac:(lia) Hnth Hm). lia.
  - apply IH; try lia. exists k. split; [| exact Hnth].
    destruct (Z.le_gt_cases ((left + right) / 2) (Z.of_nat k)) as [Hkm |]; [| lia].
    pose proof (sorted_nth (Z.to_nat ((left + right) / 2)) k m search Hs
                  ltac:(lia) Hm Hnth). lia.
Qed.

(** X24. [binarySearch(array, search)] returns after at most
    [array.length + 1] tests of the loop condition, on any array, sorted
    or not; an answer [true] is always right ([search] does occur), and
    the empty array gives [false]. *)
Theorem binarySearch_returns_and_true_is_right :
  exists b,
    Quality.binarySearch (S (length array)) array search = Some b /\
    (b = true -> In search array) /\
    (array = [] -> b = false).
Proof.
  unfold Quality.binarySearch.
  destruct (loop_terminates (S (length array)) 0 (Z.of_nat (length array) - 1))
    as [b Hb]; [lia |].
  exists b. split; [exact Hb |]. split.
  - intros ->. eapply loop_sound. exact Hb.
  - intros ->. simpl in Hb. congruence.
Qed.

(** X25. On an array sorted in ascending order [binarySearch] finds
    every element that occurs in it. *)
Theorem binarySearch_finds_in_sorted :
  Sorted.StronglySorted Z.le array ->
  In search array ->
  Quality.binarySearch (S (length array)) array search = Some true.
Proof.
  intros Hs Hin. unfold Quality.binarySearch.
  apply In_nth_error in Hin. destruct Hin as [k Hk].
  assert (k < length array)%nat by (apply nth_error_Some; congruence).
  apply loop_complete; try lia; [exact Hs |].
  exists k. split; [lia | exact Hk].
Qed.

End BinarySearch.

Lemma binarySearch_finds_in_sorted_witness :
  Quality.binarySearch 5 [2; 5; 7; 9]%Z 7%Z = Some true.
Proof.
  apply (binarySearch_finds_in_sorted [2; 5; 7; 9]%Z 7%Z).
  - repeat constructor; lia.
  - simpl. tauto.
Defined.

(** Without the order the search can miss an element that is there. *)
Example binarySearch_misses_in_unsorted :
  Quality.binarySearch 4 [9; 5; 2]%Z 9%Z = Some false.
Proof. reflexivity. Qed.

(** ** [groupEvents] *)

Section GroupFacts.

Context {T : Type} (kind : T -> TypeScriptDoc.EventKind).

Lemma group_push (g : TypeScriptDoc.GroupedEvents T) (el : T) (k : TypeScriptDoc.EventKind) :
  TypeScriptDoc.group (TypeScriptDoc.push kind g el) k
  = TypeScriptDoc.group g k
    ++ (if TypeScriptDoc.kind_eqb (kind el) k then [el] else []).
Proof.
  unfold TypeScriptDoc.push.
  destruct (kind el), k; simpl; now rewrite ?app_nil_r.
Qed.

Lemma group_fold (events : list T) (g : TypeScriptDoc.GroupedEvents T)
      (k : TypeScriptDoc.EventKind) :
  TypeScriptDoc.group (fold_left (TypeScriptDoc.push kind) events g) k
  = TypeScriptDoc.group g k
    ++ filter (fun el => TypeScriptDoc.kind_eqb (kind el) k) events.
Proof.
  revert g. induction events as [| el rest IH]; intros g; simpl.
  - now rewrite app_nil_r.
  - rewrite IH, group_push, <- app_assoc.
    destruct (TypeScriptDoc.kind_eqb (kind el) k); reflexivity.
Qed.

(** X26. [groupEvents(events)] puts every event in the group of its
    kind and nowhere else, keeps the order of [events] inside each group,
    and loses none: the four groups together have as many events as
    [events]. *)
Theorem groupEvents_partitions_by_kind (events : list T) :
  (forall k,
     TypeScriptDoc.group (TypeScriptDoc.groupEvents kind events) k
     = filter (fun el => TypeScriptDoc.kind_eqb (kind el) k) events) /\
  length (TypeScriptDoc.conference (TypeScriptDoc.groupEvents kind events))
  + length (TypeScriptDoc.meetup (TypeScriptDoc.groupEvents kind events))
  + length (TypeScriptDoc.webinar (TypeScriptDoc.groupEvents kind events))
  + length (TypeScriptDoc.hackathon (TypeScriptDoc.groupEvents kind events))
  = length events.
Proof.
  assert (forall k,
             TypeScriptDoc.group (TypeScriptDoc.groupEvents kind events) k
             = filter (fun el => TypeScriptDoc.kind_eqb (kind el) k) events) as Hg.
  { intros k. unfold TypeScriptDoc.groupEvents. rewrite group_fold. now destruct k. }
  split; [exact Hg |].
  pose proof (Hg TypeScriptDoc.Conference) as Hc.
  pose proof (Hg TypeScriptDoc.Meetup) as Hm.
  pose proof (Hg TypeScriptDoc.Webinar) as Hw.
  pose proof (Hg TypeScriptDoc.Hackathon) as Hh.
  simpl in Hc, Hm, Hw, Hh. rewrite Hc, Hm, Hw, Hh.
  clear. induction events as [| el rest IH]; simpl; [reflexivity |].
  destruct (kind el); simpl; lia.
Qed.

End GroupFacts.

(** ** The usage lines of the documentation *)

Example usage_countOccurrences :
  ES6Array.countOccurrences [1; 1; 2; 1; 2; 3]%Z 1%Z = 3%Z.
Proof. reflexivity. Qed.

Example usage_filterNonUnique :
  ES6Array.filterNonUnique [1; 2; 2; 3; 4; 4; 5]%Z = [1; 3; 5]%Z.
Proof. reflexivity. Qed.

Example usage_similarity :
  ES6Array.similarity [1; 2; 3]%Z [1; 2; 4]%Z = [1; 2]%Z.
Proof. reflexivity. Qed.

Example usage_indexOfAll :
  ES6Array.indexOfAll [1; 2; 3; 1; 2; 3]%Z 1%Z = [0; 3]%Z /\
  ES6Array.indexOfAll [1; 2; 3]%Z 4%Z = [].
Proof. split; reflexivity. Qed.

Example usage_takeRight :
  ES6Array.takeRight [1; 2; 3]%Z (Some 2%Z) = [2; 3]%Z /\
  ES6Array.takeRight [1; 2; 3]%Z None = [3]%Z.
Proof. split; reflexivity. Qed.

Example usage_union :
  ES6Array.union [1; 2; 3]%Z [4; 3; 2]%Z = [1; 2; 3; 4]%Z.
Proof. reflexivity. Qed.

Example usage_parity :
  ES6Misc.isOdd 34 = false /\ ES6Misc.isOdd (-63) = true /\
  ES6Misc.isEven (-12) = true /\ ES6Misc.isEven 199 = false.
Proof. repeat split. Qed.

Example usage_binarySearch :
  Quality.binarySearch 5 [2; 5; 7; 9]%Z 7%Z = Some true /\
  Quality.binarySearch 5 [2; 5; 7; 9]%Z 1%Z = Some false.
Proof. split; reflexivity. Qed.

(** [NaN] is never [===] to anything, itself included, but [includes]
    finds it. *)
Example NaN_is_not_counted :
  ES6Array.countOccurrences [NaN] NaN = 0%Z /\
  ES6Array.indexOfAll [NaN] NaN = [] /\
  ES6Array.indexOf [NaN] NaN = (-1)%Z /\
  ES6Array.includes [NaN] NaN = true.
Proof. repeat split. Qed.

Example NaN_is_kept_by_filterNonUnique :
  ES6Array.filterNonUnique [NaN; Int 1; NaN; Int 1] = [NaN; NaN].
Proof. reflexivity. Qed.
